(** * image-server: signed-URL validation and the four resource handlers

  A shallow embedding of [main.go] (the gin server) and of the signing
  step of [generate-signed-url.js].  Go strings are [string] (sequences of
  8-bit characters), byte slices are [list byte], [int64] and [uint32]
  values are [Z] with their wrap-around written out.  The packages of the
  Go standard library that [validateUrl] calls are modelled in modules
  named after them; the handlers run in a small state monad over the
  storage directory, the response writer and a log of the calls made. *)

From Stdlib Require Import ZArith List Bool Lia.
From Stdlib.Strings Require Import Ascii String Byte.
From stdpp Require Import gmap strings.
Import ListNotations.

Local Open Scope Z_scope.

(** ** Bytes *)

Definition byte_to_Z (b : byte) : Z := Z.of_N (Byte.to_N b).

Definition byte_of_Z (z : Z) : byte :=
match Byte.of_N (Z.to_N (z mod 256)) with
| Some b => b
| None => x00
end.

(** [[]byte(s)] *)
Definition bytes (s : string) : list byte := list_byte_of_string s.

(** ** crypto/sha256 (FIPS 180-4), on 32-bit words held in [Z] *)

Module sha256.

Definition u32 (x : Z) : Z := x mod 2 ^ 32.

(** [bits.RotateLeft32(x, -n)] *)
Definition rotr (x n : Z) : Z :=
  Z.lor (Z.shiftr x n) (u32 (Z.shiftl x (32 - n))).

Definition not32 (x : Z) : Z := Z.lxor x (2 ^ 32 - 1).

Definition _K : list Z :=
  [ 1116352408; 1899447441; 3049323471; 3921009573; 961987163; 1508970993;
    2453635748; 2870763221; 3624381080; 310598401; 607225278; 1426881987;
    1925078388; 2162078206; 2614888103; 3248222580; 3835390401; 4022224774;
    264347078; 604807628; 770255983; 1249150122; 1555081692; 1996064986;
    2554220882; 2821834349; 2952996808; 3210313671; 3336571891; 3584528711;
    113926993; 338241895; 666307205; 773529912; 1294757372; 1396182291;
    1695183700; 1986661051; 2177026350; 2456956037; 2730485921; 2820302411;
    3259730800; 3345764771; 3516065817; 3600352804; 4094571909; 275423344;
    430227734; 506948616; 659060556; 883997877; 958139571; 1322822218;
    1537002063; 1747873779; 1955562222; 2024104815; 2227730452; 2361852424;
    2428436474; 2756734187; 3204031479; 3329325298 ].

(** The eight chaining words [h[0..7]] of a [digest]. *)
Record digest := Digest { h0 : Z; h1 : Z; h2 : Z; h3 : Z; h4 : Z; h5 : Z; h6 : Z; h7 : Z }.

Definition init : digest :=
  Digest 1779033703 3144134277 1013904242 2773480762
         1359893119 2600822924 528734635 1541459225.

(** [w[i] = uint32(p[j])<<24 | uint32(p[j+1])<<16 | uint32(p[j+2])<<8 | uint32(p[j+3])] *)
Fixpoint words (p : list Z) : list Z :=
  match p with
  | a :: b :: c :: d :: p' =>
      Z.lor (Z.lor (Z.lor (Z.shiftl a 24) (Z.shiftl b 16)) (Z.shiftl c 8)) d :: words p'
  | _ => []
  end.

(** The loop [for i := 16; i < 64; i++] over a sliding window of the last
    sixteen words: [w[i] = t1 + w[i-7] + t2 + w[i-16]]. *)
Fixpoint expand (n : nat) (win : list Z) : list Z :=
  match n with
  | O => []
  | S n' =>
      let v1 := nth 14 win 0 in
      let t1 := Z.lxor (Z.lxor (rotr v1 17) (rotr v1 19)) (Z.shiftr v1 10) in
      let v2 := nth 1 win 0 in
      let t2 := Z.lxor (Z.lxor (rotr v2 7) (rotr v2 18)) (Z.shiftr v2 3) in
      let wi := u32 (t1 + nth 9 win 0 + t2 + nth 0 win 0) in
      wi :: expand n' (tl win ++ [wi])
  end.

Definition schedule (p : list Z) : list Z :=
  let w16 := words p in w16 ++ expand 48 w16.

(** One iteration of [for i := 0; i < 64; i++] on the working variables. *)
Definition round (v : digest) (kw : Z * Z) : digest :=
  let '(Digest a b c d e f g h) := v in
  let t1 := u32 (h + Z.lxor (Z.lxor (rotr e 6) (rotr e 11)) (rotr e 25)
                   + Z.lxor (Z.land e f) (Z.land (not32 e) g) + fst kw + snd kw) in
  let t2 := u32 (Z.lxor (Z.lxor (rotr a 2) (rotr a 13)) (rotr a 22)
                 + Z.lxor (Z.lxor (Z.land a b) (Z.land a c)) (Z.land b c)) in
  Digest (u32 (t1 + t2)) a b c (u32 (d + t1)) e f g.

(** The body of [for len(p) >= chunk] for one 64-byte chunk. *)
Definition block (dig : digest) (p : list Z) : digest :=
  let v := fold_left round (combine _K (schedule p)) dig in
  Digest (u32 (h0 dig + h0 v)) (u32 (h1 dig + h1 v)) (u32 (h2 dig + h2 v))
         (u32 (h3 dig + h3 v)) (u32 (h4 dig + h4 v)) (u32 (h5 dig + h5 v))
         (u32 (h6 dig + h6 v)) (u32 (h7 dig + h7 v)).

Fixpoint blockGeneric (chunks : nat) (dig : digest) (p : list Z) : digest :=
  match chunks with
  | O => dig
  | S n => blockGeneric n (block dig (firstn 64 p)) (skipn 64 p)
  end.

(** Big-endian bytes of the low [8 * n] bits of [x]. *)
Fixpoint be (n : nat) (x : Z) : list Z :=
  match n with
  | O => []
  | S n' => Z.shiftr x (8 * Z.of_nat n') mod 256 :: be n' x
  end.

(** [checkSum]: a 0x80 byte, zeros up to 56 mod 64, the bit length on 8 bytes. *)
Definition pad (len : Z) : list Z :=
  128 :: repeat 0 (Z.to_nat ((55 - len) mod 64)) ++ be 8 (8 * len).

Definition Sum256 (data : list byte) : list byte :=
  let p := map byte_to_Z data in
  let padded := p ++ pad (Z.of_nat (length p)) in
  let d := blockGeneric (Nat.div (length padded) 64) init padded in
  map byte_of_Z
    (be 4 (h0 d) ++ be 4 (h1 d) ++ be 4 (h2 d) ++ be 4 (h3 d) ++
     be 4 (h4 d) ++ be 4 (h5 d) ++ be 4 (h6 d) ++ be 4 (h7 d)).

Definition BlockSize : nat := 64%nat.
Definition Size : nat := 32%nat.

End sha256.

(** ** crypto/subtle

    [ConstantTimeCompare] is instrumented: it returns its result together
    with the number of iterations of its loop, the only part of the
    comparison whose length could depend on the data. *)

Module subtle.

(** [int((uint32(x^y) - 1) >> 31)] *)
Definition ConstantTimeByteEq (x y : Z) : Z :=
  Z.shiftr ((Z.lxor x y - 1) mod 2 ^ 32) 31.

(** [for i := 0; i < len(x); i++ { v |= x[i] ^ y[i] }] *)
Fixpoint compare_loop (x y : list byte) (v : Z) (steps : nat) : Z * nat :=
  match x, y with
  | a :: x', b :: y' =>
      compare_loop x' y' (Z.lor v (Z.lxor (byte_to_Z a) (byte_to_Z b))) (S steps)
  | _, _ => (v, steps)
  end.

Definition ConstantTimeCompare (x y : list byte) : Z * nat :=
  if negb (length x =? length y)%nat then (0, O)
  else let '(v, steps) := compare_loop x y 0 O in (ConstantTimeByteEq v 0, steps).

(** The comparison the validator does not use: a left-to-right scan that
    stops at the first difference (what [==] on strings may do). *)
Fixpoint short_circuit_compare (x y : list byte) (steps : nat) : bool * nat :=
  match x, y with
  | [], [] => (true, steps)
  | a :: x', b :: y' =>
      if (byte_to_Z a =? byte_to_Z b) then short_circuit_compare x' y' (S steps)
      else (false, S steps)
  | _, _ => (false, steps)
  end.

End subtle.

(** ** crypto/hmac (RFC 2104) over SHA-256 *)

Module hmac.

Definition xor_with (c : Z) (b : byte) : byte := byte_of_Z (Z.lxor (byte_to_Z b) c).

(** [hmac.New(sha256.New, key)]: a key longer than the block size is hashed
    first, then the key is zero-padded to one block. *)
Definition block_key (key : list byte) : list byte :=
  let k := if (sha256.BlockSize <? length key)%nat then sha256.Sum256 key else key in
  k ++ repeat x00 (sha256.BlockSize - length k).

(** [h := hmac.New(sha256.New, key); h.Write(data); h.Sum(nil)] *)
Definition Sum (key data : list byte) : list byte :=
  let k := block_key key in
  let inner := sha256.Sum256 (map (xor_with 54) k ++ data) in
  sha256.Sum256 (map (xor_with 92) k ++ inner).

(** [hmac.Equal]: [subtle.ConstantTimeCompare(mac1, mac2) == 1] *)
Definition Equal (mac1 mac2 : list byte) : bool :=
  fst (subtle.ConstantTimeCompare mac1 mac2) =? 1.

End hmac.

(** ** encoding/hex *)

Module hex.

(** [hextable = "0123456789abcdef"], indexed by a nibble. *)
Definition hextable (n : Z) : ascii :=
  if n <? 10 then ascii_of_N (Z.to_N (48 + n)) else ascii_of_N (Z.to_N (87 + n)).

(** [dst[j] = hextable[v>>4]; dst[j+1] = hextable[v&0x0f]] *)
Fixpoint EncodeToString (src : list byte) : string :=
  match src with
  | [] => EmptyString
  | v :: src' =>
      String (hextable (Z.shiftr (byte_to_Z v) 4))
        (String (hextable (Z.land (byte_to_Z v) 15)) (EncodeToString src'))
  end.



End hex.

(** ** strconv, for base 10 and bit size 64 *)

Module strconv.

Inductive NumError := ErrSyntax | ErrRange.

Definition maxUint64 : Z := 2 ^ 64 - 1.

(** [cutoff = maxUint64/10 + 1]: the smallest number whose tenfold overflows. *)
Definition cutoff10 : Z := maxUint64 / 10 + 1.

(** The digit value of a character in [ParseUint]'s [switch]: decimal digits,
    then letters (which are digits of larger bases). *)
Definition digit_val (c : ascii) : option Z :=
  let n := Z.of_N (N_of_ascii c) in
  let lower := Z.lor n 32 in
  if (48 <=? n) && (n <=? 57) then Some (n - 48)
  else if (97 <=? lower) && (lower <=? 122) then Some (lower - 97 + 10)
  else None.

(** [for _, c := range []byte(s)] with the accumulator [n : uint64]. *)
Fixpoint parse_loop (s : string) (n : Z) : Z * option NumError :=
  match s with
  | EmptyString => (n, None)
  | String c s' =>
      match digit_val c with
      | None => (0, Some ErrSyntax)
      | Some d =>
          if d >=? 10 then (0, Some ErrSyntax)
          else if n >=? cutoff10 then (maxUint64, Some ErrRange)
          else
            let n10 := (n * 10) mod 2 ^ 64 in
            let n1 := (n10 + d) mod 2 ^ 64 in
            if (n1 <? n10) || (n1 >? maxUint64) then (maxUint64, Some ErrRange)
            else parse_loop s' n1
      end
  end.

Definition ParseUint (s : string) : Z * option NumError :=
  match s with
  | EmptyString => (0, Some ErrSyntax)
  | _ => parse_loop s 0
  end.

(** Conversion [int64(u)] of an unsigned 64-bit value, and [int64] negation. *)
Definition int64 (u : Z) : Z := (u + 2 ^ 63) mod 2 ^ 64 - 2 ^ 63.

Definition ParseInt (s : string) : Z * option NumError :=
  match s with
  | EmptyString => (0, Some ErrSyntax)
  | String c0 s' =>
      let neg := Ascii.eqb c0 "-" in
      let s1 := if Ascii.eqb c0 "+" || neg then s' else s in
      let '(un, err) := ParseUint s1 in
      match err with
      | Some ErrSyntax => (0, err)
      | _ =>
          let cutoff := 2 ^ 63 in
          if negb neg && (un >=? cutoff) then (cutoff - 1, Some ErrRange)
          else if neg && (un >? cutoff) then (- cutoff, Some ErrRange)
          else
            let n := int64 un in
            (if neg then int64 (- n) else n, None)
      end
  end.

Definition digit_char (d : Z) : ascii := ascii_of_N (Z.to_N (48 + d)).

(** [fmtInteger]'s base-10 loop, writing the buffer from its end:
    [for u >= 10 { next := u / 10; buf[i] = '0' + u - next*10; u = next }]
    and then the last digit.  [fuel] bounds the number of digits. *)
Fixpoint fmt_digits (fuel : nat) (u : Z) (buf : string) : string :=
  match fuel with
  | O => buf
  | S fuel' =>
      if u >=? 10 then
        let next := u / 10 in
        fmt_digits fuel' next (String (digit_char (u - next * 10)) buf)
      else String (digit_char u) buf
  end.

(** The verb [%d] on an [int64] (also [strconv.FormatInt(e, 10)]): the
    magnitude as a [uint64], a minus sign in front when negative.  Twenty
    digits hold every [uint64]. *)
Definition FormatInt (e : Z) : string :=
  let negative := e <? 0 in
  let u := (if negative then - e else e) mod 2 ^ 64 in
  let digits := fmt_digits 20 u EmptyString in
  if negative then String "-" digits else digits.

End strconv.

(** ** path/filepath *)

Module filepath.

(** A path as the program builds it: the storage directory itself, or an
    entry name joined to a directory.  Lexical cleaning of [.] and [..]
    elements by [Join] is not modelled. *)
Inductive path :=
| Dir (dir : string)
| Join (dir name : string).

(** [os.IsPathSeparator] *)
Definition IsPathSeparator (c : ascii) : bool := Ascii.eqb c "/".

(** [Ext]: the suffix beginning at the final dot of the final element;
    the Go loop scans from the end, here the suffix after the current
    character is searched first. *)
Fixpoint Ext (p : string) : string :=
  match p with
  | EmptyString => EmptyString
  | String c p' =>
      if existsb IsPathSeparator (list_ascii_of_string p') then Ext p'
      else
        match Ext p' with
        | EmptyString =>
            if Ascii.eqb c "." then p
            else EmptyString
        | e => e
        end
  end.

End filepath.

(** ** Auxiliary predicate on strings *)

(** The character [c] does not occur in [s]. *)
Fixpoint free_of (c : ascii) (s : string) : Prop :=
  match s with
  | EmptyString => True
  | String a s' => a <> c /\ free_of c s'
  end.

(** ** The request, the response and the world the handlers act on *)

(** Lookup of the first value bound to a key (query values, route
    parameters and form parts all keep their order). *)
Fixpoint assoc {A : Type} (key : string) (l : list (string * A)) : option A :=
  match l with
  | [] => None
  | (k, v) :: l' => if String.eqb k key then Some v else assoc key l'
  end.

(** [multipart.FileHeader] with the bytes of the part. *)
Record FileHeader := { Filename : string; Content : list byte }.

Definition Size (fh : FileHeader) : Z := Z.of_nat (length (Content fh)).

(** [http.Request]: method, URL path, decoded query pairs and, when the body
    is a multipart form, its file parts. *)
Record Request := {
  Method : string;
  URLPath : string;
  URLQuery : list (string * string);
  MultipartForm : option (list (string * FileHeader)) }.

Inductive JSON := JString (s : string) | JNumber (n : Z).

Inductive Body :=
| NoBody
| JSONBody (indented : bool) (obj : list (string * JSON))
| Text (s : string)
| FileBody (data : list byte).

Record ResponseWriter := {
  Status : Z;
  HeaderMap : gmap string string;
  Written : Body }.

(** What lies at a path of the storage. *)
Inductive node := Directory | Regular (data : list byte).

(** The calls a handler makes to the operating system and to the request
    body, in order. *)
Inductive Call :=
| CallStat (p : filepath.path)
| CallOpen (p : filepath.path)
| CallMkdirAll (p : filepath.path)
| CallCreate (p : filepath.path)
| CallCopy (p : filepath.path) (n : nat)
| CallRemove (p : filepath.path)
| CallFormFile (key : string)
| CallNewUUID
| CallServeFile (p : filepath.path).

(** The world outside the program: the directories with their entries, the
    clock, the next identifier [uuid.New] will draw, and which operations
    the operating system will refuse for reasons of its own (permissions,
    a full or failing disk).  [CopyFails = Some k] breaks a copy after [k]
    bytes. *)
Record World := {
  disk : gmap string (gmap string (list byte));
  clock : Z;
  nextUUID : string;
  OpenFails : bool;
  MkdirAllFails : bool;
  CreateFails : bool;
  CopyFails : option nat;
  RemoveFails : bool }.

Record State := {
  world : World;
  writer : ResponseWriter;
  index : Z;
  calls : list Call }.

(** The handlers' monad: a state transformer. *)
Definition M (A : Type) : Type := State -> A * State.

#[export] Instance M_ret : MRet M := fun A a s => (a, s).
#[export] Instance M_bind : MBind M :=
  fun A B f m s => let '(a, s') := m s in f a s'.

Definition get : M State := fun s => (s, s).
Definition put (s : State) : M unit := fun _ => (tt, s).

Definition set_disk (d : gmap string (gmap string (list byte))) (wd : World) : World :=
  {| disk := d; clock := clock wd; nextUUID := nextUUID wd; OpenFails := OpenFails wd;
     MkdirAllFails := MkdirAllFails wd; CreateFails := CreateFails wd;
     CopyFails := CopyFails wd; RemoveFails := RemoveFails wd |}.

Definition with_disk (d : gmap string (gmap string (list byte))) : M unit :=
  fun s => (tt, {| world := set_disk d (world s); writer := writer s;
                   index := index s; calls := calls s |}).

Definition with_writer (w : ResponseWriter) : M unit :=
  fun s => (tt, {| world := world s; writer := w; index := index s; calls := calls s |}).

Definition with_index (i : Z) : M unit :=
  fun s => (tt, {| world := world s; writer := writer s; index := i; calls := calls s |}).

Definition record_call (c : Call) : M unit :=
  fun s => (tt, {| world := world s; writer := writer s; index := index s;
                   calls := calls s ++ [c] |}).

Definition find (p : filepath.path) (d : gmap string (gmap string (list byte))) : option node :=
  match p with
  | filepath.Dir dir => match d !! dir with Some _ => Some Directory | None => None end
  | filepath.Join dir name =>
      match d !! dir with
      | Some entries => Regular <$> entries !! name
      | None => None
      end
  end.

Definition write_file (p : filepath.path) (data : list byte)
    (d : gmap string (gmap string (list byte))) : gmap string (gmap string (list byte)) :=
  match p with
  | filepath.Join dir name =>
      match d !! dir with
      | Some entries => <[dir := <[name := data]> entries]> d
      | None => d
      end
  | filepath.Dir _ => d
  end.

(** ** os, io, uuid, time: a sequential file system with injected failures *)

Module os.

(** A [*PathError] that reports a missing file, or any other one. *)
Inductive error := ErrNotExist | ErrOther.

Definition IsNotExist (err : option error) : bool :=
  match err with Some ErrNotExist => true | _ => false end.

(** [os.Stat] reports exactly what is on the disk. *)
Definition Stat (p : filepath.path) : M (option error) :=
  record_call (CallStat p);;
  s ← get;
  mret (match find p (disk (world s)) with Some _ => None | None => Some ErrNotExist end).

Definition Open (p : filepath.path) : M (option error) :=
  record_call (CallOpen p);;
  s ← get;
  if OpenFails (world s) then mret (Some ErrOther)
  else mret (match find p (disk (world s)) with Some _ => None | None => Some ErrNotExist end).

(** [os.MkdirAll] on a directory: nothing to do when it exists. *)
Definition MkdirAll (p : filepath.path) : M (option error) :=
  record_call (CallMkdirAll p);;
  s ← get;
  if MkdirAllFails (world s) then mret (Some ErrOther)
  else
    match p with
    | filepath.Dir dir =>
        match disk (world s) !! dir with
        | Some _ => mret None
        | None => with_disk (<[dir := ∅]> (disk (world s)));; mret None
        end
    | filepath.Join _ _ => mret (Some ErrOther)
    end.

(** [os.Create]: creates or truncates the entry; its directory must exist. *)
Definition Create (p : filepath.path) : M (option error) :=
  record_call (CallCreate p);;
  s ← get;
  if CreateFails (world s) then mret (Some ErrOther)
  else
    match p with
    | filepath.Join dir name =>
        match disk (world s) !! dir with
        | Some _ => with_disk (write_file p [] (disk (world s)));; mret None
        | None => mret (Some ErrNotExist)
        end
    | filepath.Dir _ => mret (Some ErrOther)
    end.

Definition Remove (p : filepath.path) : M (option error) :=
  record_call (CallRemove p);;
  s ← get;
  if RemoveFails (world s) then mret (Some ErrOther)
  else
    match p with
    | filepath.Join dir name =>
        match disk (world s) !! dir with
        | Some entries =>
            match entries !! name with
            | Some _ => with_disk (<[dir := delete name entries]> (disk (world s)));; mret None
            | None => mret (Some ErrNotExist)
            end
        | None => mret (Some ErrNotExist)
        end
    | filepath.Dir _ => mret (Some ErrOther)
    end.

End os.

Module io.

(** [io.Copy(dst, src)] into the file created at [dst]: all of [src], or its
    first [k] bytes and an error. *)
Definition Copy (dst : filepath.path) (src : list byte) : M (Z * option os.error) :=
  s ← get;
  match CopyFails (world s) with
  | Some k =>
      record_call (CallCopy dst (length (take k src)));;
      with_disk (write_file dst (take k src) (disk (world s)));;
      mret (Z.of_nat (length (take k src)), Some os.ErrOther)
  | None =>
      record_call (CallCopy dst (length src));;
      with_disk (write_file dst src (disk (world s)));;
      mret (Z.of_nat (length src), None)
  end.

End io.

Module uuid.

(** [uuid.New().String()] *)
Definition NewString : M string :=
  record_call CallNewUUID;;
  s ← get;
  mret (nextUUID (world s)).

End uuid.

Module time.

(** [time.Now().Unix()] *)
Definition NowUnix : M Z := s ← get; mret (clock (world s)).

End time.

Module http.

Definition StatusOK : Z := 200.
Definition StatusBadRequest : Z := 400.
Definition StatusForbidden : Z := 403.
Definition StatusNotFound : Z := 404.
Definition StatusInternalServerError : Z := 500.

(** The first file part named [key], when the body is a multipart form. *)
Definition file_part (r : Request) (key : string) : option FileHeader :=
  match MultipartForm r with
  | Some parts => assoc key parts
  | None => None
  end.

(** [r.FormFile(key)]: reads the body; fails when it is not a multipart
    form or has no file part under [key]. *)
Definition FormFile (r : Request) (key : string) : M (option FileHeader) :=
  record_call (CallFormFile key);;
  mret (file_part r key).

End http.

(** ** gin: the context, the response helpers and the handler chain *)

Module gin.

Record Context := { Request : Request; Params : list (string * string) }.

(** [c.Param(key)]: the empty string when the route has no such parameter. *)
Definition Param (c : Context) (key : string) : string :=
  default EmptyString (assoc key (Params c)).

Definition GetQuery (c : Context) (key : string) : option string :=
  assoc key (URLQuery (Request c)).

(** [c.Query(key)]: the first value, or the empty string when absent. *)
Definition Query (c : Context) (key : string) : string :=
  default EmptyString (GetQuery c key).

(** [c.Header(key, value)]: an empty value deletes the header. *)
Definition Header (key value : string) : M unit :=
  s ← get;
  let w := writer s in
  with_writer {| Status := Status w;
                 HeaderMap := if String.eqb value "" then delete key (HeaderMap w)
                           else <[key := value]> (HeaderMap w);
                 Written := Written w |}.

(** The content type of a rendering is written only when none is set. *)
Definition writeContentType (value : string) (h : gmap string string) : gmap string string :=
  match h !! "Content-Type" with
  | Some _ => h
  | None => <["Content-Type" := value]> h
  end.

Definition render (indented : bool) (code : Z) (obj : list (string * JSON)) : M unit :=
  s ← get;
  with_writer {| Status := code;
                 HeaderMap := writeContentType "application/json; charset=utf-8" (HeaderMap (writer s));
                 Written := JSONBody indented obj |}.

Definition JSON := render false.
Definition IndentedJSON := render true.

(** [c.File(path)]: [http.ServeFile] on a plain request writes the file's
    bytes.  Its own choice of a content type when none is set, and its
    treatment of conditional and range requests, are not modelled. *)
Definition File (p : filepath.path) : M unit :=
  record_call (CallServeFile p);;
  s ← get;
  let w := writer s in
  match find p (disk (world s)) with
  | Some (Regular data) =>
      with_writer {| Status := http.StatusOK; HeaderMap := HeaderMap w; Written := FileBody data |}
  | Some Directory =>
      with_writer {| Status := 301; HeaderMap := HeaderMap w; Written := NoBody |}
  | None =>
      with_writer {| Status := http.StatusNotFound; HeaderMap := HeaderMap w;
                     Written := Text "404 page not found" |}
  end.

Definition abortIndex : Z := 63.

(** [c.Abort()] *)
Definition Abort : M unit := with_index abortIndex.

(** A handler receives the context and what [c.Next()] does at its place
    in the chain. *)
Definition HandlerFunc : Type := Context -> M unit -> M unit.

Definition incr_index : M unit := s ← get; with_index (index s + 1).

(** [for c.index < len(c.handlers) { c.handlers[c.index](c); c.index++ }],
    where [hs] are the handlers from [c.index] on and [n] is the length of
    the whole chain. *)
Fixpoint loop (n : Z) (c : Context) (hs : list HandlerFunc) : M unit :=
  match hs with
  | [] => mret tt
  | h :: rest =>
      s ← get;
      if index s <? n then
        h c (incr_index;; loop n c rest);;
        incr_index;;
        loop n c rest
      else mret tt
  end.

(** [c.Next()] at the start of a request ([c.index] is -1). *)
Definition Next (c : Context) (hs : list HandlerFunc) : M unit :=
  incr_index;; loop (Z.of_nat (length hs)) c hs.

End gin.

(** ** main.go *)

(** [getEnv] over the process environment, and [init]: the storage
    directory and the secret key, or [None] where [init] panics. *)
Definition getEnv (environ : list (string * string)) (key defaultValue : string) : string :=
  match assoc key environ with
  | Some value => if String.eqb value "" then defaultValue else value
  | None => defaultValue
  end.

Definition init (environ : list (string * string)) : option (string * string) :=
  let uploadDirPath := getEnv environ "UPLOAD_DIR_PATH" "uploads" in
  let secretKey := getEnv environ "SECRET_KEY" "" in
  if String.eqb secretKey "" then None else Some (uploadDirPath, secretKey).

(** The address [main] passes to [router.Run]: [port[0]] panics on an empty
    string ([None]); a port without its colon gets one. *)
Definition listenAddr (environ : list (string * string)) : option string :=
  let port := getEnv environ "SERVER_PORT" ":8000" in
  match port with
  | EmptyString => None
  | String c _ => Some (if negb (Ascii.eqb c ":") then ":" +:+ port else port)
  end.

Section Server.

(** The process-wide configuration read by [init], and the platform's
    table behind [mime.TypeByExtension]. *)
Variables (uploadDirPath secretKey : string).
Variable TypeByExtension : string -> string.

Definition getMimeType (filename : string) : string :=
  let ext := filepath.Ext filename in
  TypeByExtension ext.

(** [fmt.Sprintf("%s:%s:%d", method, filename, expires)] *)
Definition Sprintf_s_s_d (method filename : string) (expires : Z) : string :=
  method +:+ ":" +:+ filename +:+ ":" +:+ strconv.FormatInt expires.

(** [validateUrl], with the value of [time.Now().Unix()] passed in. *)
Definition validateUrl (now : Z) (c : gin.Context) : bool :=
  let filename := gin.Param c "filename" in
  let expireStr := gin.Query c "expires" in
  let signature := gin.Query c "signature" in
  if String.eqb expireStr "" || String.eqb signature "" then false
  else
    let '(expires, err) := strconv.ParseInt expireStr in
    if (match err with Some _ => true | None => false end) || (now >? expires) then false
    else
      let method := Method (gin.Request c) in
      let data := Sprintf_s_s_d method filename expires in
      let expectedsignature := hex.EncodeToString (hmac.Sum (bytes secretKey) (bytes data)) in
      hmac.Equal (bytes signature) (bytes expectedsignature).

Definition SignedURLMiddleware : gin.HandlerFunc := fun c next =>
  now ← time.NowUnix;
  if negb (validateUrl now c) then
    gin.JSON http.StatusForbidden [("error", JString "Invalid or expired URL")];;
    gin.Abort
  else next.

(** [router.GET("/", ...)] *)
Definition rootHandler : gin.HandlerFunc := fun c _ =>
  gin.IndentedJSON http.StatusOK [("message", JString "Server is running")].

(** [router.GET("/images/:filename", ...)]; the deferred [Close] has no
    effect on the state modelled. *)
Definition getImageHandler : gin.HandlerFunc := fun c _ =>
  let filename := gin.Param c "filename" in
  let path := filepath.Join uploadDirPath filename in
  err ← os.Open path;
  match err with
  | Some _ => gin.IndentedJSON http.StatusNotFound [("message", JString "File not found")]
  | None =>
      gin.Header "Content-Disposition" ("inline; filename=" +:+ filename);;
      gin.Header "Content-Type" (getMimeType filename);;
      gin.File path
  end.

(** [router.POST("/images", ...)]; the result of [os.MkdirAll] is dropped, as
    in the source. *)
Definition postImageHandler : gin.HandlerFunc := fun c _ =>
  file ← http.FormFile (gin.Request c) "file";
  match file with
  | None =>
      gin.IndentedJSON http.StatusBadRequest [("message", JString "File not found in the request")]
  | Some fileHeader =>
      err ← os.Stat (filepath.Dir uploadDirPath);
      (if os.IsNotExist err then os.MkdirAll (filepath.Dir uploadDirPath);; mret tt
       else mret tt);;
      let extentionName := filepath.Ext (Filename fileHeader) in
      id ← uuid.NewString;
      let newFileName := id +:+ extentionName in
      let destinationPath := filepath.Join uploadDirPath newFileName in
      err ← os.Create destinationPath;
      match err with
      | Some _ =>
          gin.IndentedJSON http.StatusInternalServerError
            [("message", JString "Failed to create file.")]
      | None =>
          r ← io.Copy destinationPath (Content fileHeader);
          match snd r with
          | Some _ =>
              gin.IndentedJSON http.StatusInternalServerError
                [("message", JString "Failed to save file.")]
          | None =>
              gin.IndentedJSON http.StatusOK
                [("message", JString "File uploaded");
                 ("filename", JString newFileName);
                 ("original_filename", JString (Filename fileHeader));
                 ("size", JNumber (Size fileHeader))]
          end
      end
  end.

(** [router.PUT("/images/:filename", ...)] *)
Definition putImageHandler : gin.HandlerFunc := fun c _ =>
  let path := filepath.Join uploadDirPath (gin.Param c "filename") in
  err ← os.Stat path;
  if os.IsNotExist err then
    gin.IndentedJSON http.StatusNotFound [("message", JString "File Not found.")]
  else
    file ← http.FormFile (gin.Request c) "file";
    match file with
    | None =>
        gin.IndentedJSON http.StatusBadRequest
          [("message", JString "File not found in the request")]
    | Some header =>
        err ← os.Create path;
        match err with
        | Some _ =>
            gin.IndentedJSON http.StatusInternalServerError
              [("message", JString "Failed to create file.")]
        | None =>
            r ← io.Copy path (Content header);
            match snd r with
            | Some _ =>
                gin.IndentedJSON http.StatusInternalServerError
                  [("message", JString "Failed to save file.")]
            | None =>
                gin.IndentedJSON http.StatusOK
                  [("message", JString "File updated"); ("size", JNumber (Size header))]
            end
        end
    end.

(** [router.DELETE("/images/:filename", ...)] *)
Definition deleteImageHandler : gin.HandlerFunc := fun c _ =>
  let path := filepath.Join uploadDirPath (gin.Param c "filename") in
  err ← os.Remove path;
  match err with
  | Some _ =>
      gin.IndentedJSON http.StatusInternalServerError
        [("message", JString "Failed to remove file.")]
  | None => gin.IndentedJSON http.StatusOK [("message", JString "File removed")]
  end.

(** The routes registered by [main]: a fixed path, or a prefix followed by
    one named parameter that takes a whole non-empty path segment. *)
Inductive pattern :=
| Exact (p : string)
| WithParam (prefix name : string).

Fixpoint strip_prefix (pre s : string) : option string :=
  match pre, s with
  | EmptyString, _ => Some s
  | String a pre', String b s' => if Ascii.eqb a b then strip_prefix pre' s' else None
  | String _ _, EmptyString => None
  end.

Definition match_pattern (pat : pattern) (p : string) : option (list (string * string)) :=
  match pat with
  | Exact q => if String.eqb q p then Some [] else None
  | WithParam prefix name =>
      match strip_prefix prefix p with
      | Some seg =>
          if String.eqb seg "" || existsb filepath.IsPathSeparator (list_ascii_of_string seg)
          then None
          else Some [(name, seg)]
      | None => None
      end
  end.

(** The five routes registered by [main], and the handlers chained on each.
    The logger and the recovery handler that [gin.Default] puts in front of
    every chain only call [c.Next()] and are left out. *)
Inductive route := Root | GetImage | PostImage | PutImage | DeleteImage.

Definition main : list (string * pattern * route) :=
  [ ("GET", Exact "/", Root);
    ("GET", WithParam "/images/" "filename", GetImage);
    ("POST", Exact "/images", PostImage);
    ("PUT", WithParam "/images/" "filename", PutImage);
    ("DELETE", WithParam "/images/" "filename", DeleteImage) ].

Definition handlers (rt : route) : list gin.HandlerFunc :=
  match rt with
  | Root => [rootHandler]
  | GetImage => [SignedURLMiddleware; getImageHandler]
  | PostImage => [SignedURLMiddleware; postImageHandler]
  | PutImage => [SignedURLMiddleware; putImageHandler]
  | DeleteImage => [SignedURLMiddleware; deleteImageHandler]
  end.

(** The first route of the request's method whose pattern matches, with the
    parameters the pattern binds. *)
Fixpoint find_route (routes : list (string * pattern * route)) (r : Request)
    : option (route * list (string * string)) :=
  match routes with
  | [] => None
  | (m, pat, rt) :: routes' =>
      if String.eqb m (Method r) then
        match match_pattern pat (URLPath r) with
        | Some ps => Some (rt, ps)
        | None => find_route routes' r
        end
      else find_route routes' r
  end.

(** The engine: the matched route runs its chain; no route answers 404. *)
Definition handleHTTPRequest (r : Request) : M unit :=
  match find_route main r with
  | Some (rt, ps) => gin.Next {| gin.Request := r; gin.Params := ps |} (handlers rt)
  | None =>
      s ← get;
      with_writer {| Status := http.StatusNotFound; HeaderMap := HeaderMap (writer s);
                     Written := Text "404 page not found" |}
  end.

Definition fresh (wd : World) : State :=
  {| world := wd;
     writer := {| Status := http.StatusOK; HeaderMap := ∅; Written := NoBody |};
     index := -1;
     calls := [] |}.

Definition ServeHTTP (wd : World) (r : Request) : State :=
  snd (handleHTTPRequest r (fresh wd)).

End Server.

(** ** generate-signed-url.js *)

Module generate_signed_url.

(** [`${method}:${filename || ''}:${expires}`], signed with HMAC-SHA256 and
    rendered by [digest('hex')]. *)
Definition signature (secretKey method : string) (filename : option string) (expires : Z) : string :=
  let data := method +:+ ":" +:+ default EmptyString filename +:+ ":" +:+ strconv.FormatInt expires in
  hex.EncodeToString (hmac.Sum (bytes secretKey) (bytes data)).

(** [generateSignedUrl], with [Math.floor(Date.now() / 1000)] passed in. *)
Definition generateSignedUrl (secretKey baseUrl : string) (nowSeconds : Z)
    (method : string) (filename : option string) (validForSeconds : Z) : string :=
  let expires := nowSeconds + validForSeconds in
  let sig := signature secretKey method filename expires in
  match filename with
  | Some (String c f) =>
      baseUrl +:+ "/images/" +:+ String c f +:+ "?expires=" +:+ strconv.FormatInt expires
        +:+ "&signature=" +:+ sig
  | _ => baseUrl +:+ "/images?expires=" +:+ strconv.FormatInt expires +:+ "&signature=" +:+ sig
  end.

(** [toLowerCase] on the letters A to Z; no other character becomes one of
    the characters of the flags compared below. *)
Definition lower (c : ascii) : ascii :=
  let n := N_of_ascii c in
  if ((65 <=? n) && (n <=? 90))%N then ascii_of_N (n + 32) else c.

Fixpoint toLowerCase (s : string) : string :=
  match s with
  | EmptyString => EmptyString
  | String c s' => String (lower c) (toLowerCase s')
  end.

(** The [switch] on [args[0].toLowerCase()]: the method, the image name
    ([null] for POST) and the text of the validity, or [None] where the
    script prints its usage and exits.  The check of the validity that
    follows in the script is not modelled. *)
Definition parseArgs (args : list string) : option (string * option string * string) :=
  match args with
  | [] => None
  | flag :: operands =>
      let methodFlag := toLowerCase flag in
      if String.eqb methodFlag "--post" || String.eqb methodFlag "-p" then
        match operands with
        | timeInSeconds :: _ => Some ("POST", None, timeInSeconds)
        | [] => None
        end
      else if String.eqb methodFlag "--get" || String.eqb methodFlag "-g" then
        match operands with
        | imageName :: timeInSeconds :: _ => Some ("GET", Some imageName, timeInSeconds)
        | _ => None
        end
      else if String.eqb methodFlag "--put" || String.eqb methodFlag "-u" then
        match operands with
        | imageName :: timeInSeconds :: _ => Some ("PUT", Some imageName, timeInSeconds)
        | _ => None
        end
      else if String.eqb methodFlag "--delete" || String.eqb methodFlag "-d" then
        match operands with
        | imageName :: timeInSeconds :: _ => Some ("DELETE", Some imageName, timeInSeconds)
        | _ => None
        end
      else None
  end.

End generate_signed_url.


(** ** Concrete requests and worlds *)

Module Scenario.

Definition secret : string := "s3cr3t".
Definition uploads : string := "uploads".

Definition mimeTable (ext : string) : string :=
  if String.eqb ext ".jpg" then "image/jpeg"
  else if String.eqb ext ".png" then "image/png"
  else "".

Definition jpgBytes : list byte := [xff; xd8; xff; xe0].

Definition world0 (now : Z) : World :=
  {| disk := {[ uploads := {[ "a.jpg" := jpgBytes ]} ]};
     clock := now; nextUUID := "4d030191-3362-4491-8fab-f9c4c6ef17e0";
     OpenFails := false; MkdirAllFails := false; CreateFails := false;
     CopyFails := None; RemoveFails := false |}.

Definition signed (method path : string) (filename : option string) (expires : Z)
    (form : option (list (string * FileHeader))) : Request :=
  {| Method := method; URLPath := path;
     URLQuery := [("expires", strconv.FormatInt expires);
                  ("signature", generate_signed_url.signature secret method filename expires)];
     MultipartForm := form |}.

Definition expiry : Z := 1999999999.

Definition photo : FileHeader := {| Filename := "photo.jpg"; Content := jpgBytes |}.

Definition getA : Request := signed "GET" "/images/a.jpg" (Some "a.jpg") expiry None.


Definition postPhoto : Request := signed "POST" "/images" None expiry (Some [("file", photo)]).

Definition deleteA : Request := signed "DELETE" "/images/a.jpg" (Some "a.jpg") expiry None.

(** The token minted for GET, replayed on PUT. *)
Definition putWithGetToken : Request :=
  {| Method := "PUT"; URLPath := "/images/a.jpg"; URLQuery := URLQuery getA;
     MultipartForm := Some [("file", photo)] |}.

(** The same token with the expiry written with a sign. *)
Definition getPlus : Request :=
  {| Method := "GET"; URLPath := "/images/a.jpg";
     URLQuery := [("expires", "+1999999999");
                  ("signature", generate_signed_url.signature secret "GET" (Some "a.jpg") expiry)];
     MultipartForm := None |}.

Definition at_a (r : Request) : gin.Context :=
  {| gin.Request := r; gin.Params := [("filename", "a.jpg")] |}.

End Scenario.

(** ** Shapes of text, and the request made with a minted URL *)

Fixpoint all_chars (f : ascii -> bool) (s : string) : bool :=
  match s with
  | EmptyString => true
  | String c s' => f c && all_chars f s'
  end.

Definition is_digit (c : ascii) : bool :=
  let n := Z.of_N (N_of_ascii c) in (48 <=? n) && (n <=? 57).

Definition is_lower_hex (c : ascii) : bool :=
  let n := Z.of_N (N_of_ascii c) in
  ((48 <=? n) && (n <=? 57)) || ((97 <=? n) && (n <=? 102)).


(** An optional sign followed by at least one decimal digit. *)
Definition decimal_text (s : string) : bool :=
  match s with
  | EmptyString => false
  | String c s' =>
      if Ascii.eqb c "+" || Ascii.eqb c "-" then
        match s' with
        | EmptyString => false
        | _ => all_chars is_digit s'
        end
      else all_chars is_digit s
  end.


(** The JSON responses of the handlers. *)
Definition json_response (code : Z) (obj : list (string * JSON)) : ResponseWriter :=
  {| Status := code;
     HeaderMap := {[ "Content-Type" := "application/json; charset=utf-8" ]};
     Written := JSONBody true obj |}.

Module Runs.

Definition now0 : Z := 1700000000.

Definition newBytes : list byte := [x89; x50; x4e; x47; x0d].

Definition replacement : FileHeader := {| Filename := "other.png"; Content := newBytes |}.

Definition putA : Request :=
  Scenario.signed "PUT" "/images/a.jpg" (Some "a.jpg") Scenario.expiry
    (Some [("file", replacement)]).

Definition stored : string := "4d030191-3362-4491-8fab-f9c4c6ef17e0.jpg".




(** A world where copies break after two bytes. *)
Definition brokenCopy : World :=
  {| disk := disk (Scenario.world0 now0); clock := now0;
     nextUUID := nextUUID (Scenario.world0 now0);
     OpenFails := false; MkdirAllFails := false; CreateFails := false;
     CopyFails := Some 2%nat; RemoveFails := false |}.

End Runs.

(** * Properties *)

(** ** Bytes and hexadecimal text *)

Lemma byte_to_Z_range (b : byte) : 0 <= byte_to_Z b < 256.
Proof.
  unfold byte_to_Z. pose proof (Byte.to_N_bounded b). lia.
Qed.

Lemma byte_of_to_Z (b : byte) : byte_of_Z (byte_to_Z b) = b.
Proof.
  unfold byte_of_Z. pose proof (byte_to_Z_range b) as Hr.
  rewrite Z.mod_small by lia. unfold byte_to_Z.
  rewrite N2Z.id, Byte.of_to_N. reflexivity.
Qed.

Lemma byte_to_Z_inj (a b : byte) : byte_to_Z a = byte_to_Z b -> a = b.
Proof.
  intros H. rewrite <- (byte_of_to_Z a), <- (byte_of_to_Z b), H. reflexivity.
Qed.

Lemma bytes_inj (s t : string) : bytes s = bytes t -> s = t.
Proof.
  unfold bytes. intros H.
  rewrite <- (string_of_list_byte_of_string s), <- (string_of_list_byte_of_string t), H.
  reflexivity.
Qed.




Lemma hex_encode_nonempty (l : list byte) :
  l <> [] -> hex.EncodeToString l <> "".
Proof. destruct l; [congruence | discriminate]. Qed.

(** ** The digest has thirty-two bytes *)

Lemma be_length (n : nat) (x : Z) : length (sha256.be n x) = n.
Proof. induction n; cbn [sha256.be length]; congruence. Qed.

Lemma Sum256_length (data : list byte) : length (sha256.Sum256 data) = sha256.Size.
Proof.
  unfold sha256.Sum256. cbv zeta.
  rewrite length_map, !length_app, !be_length. reflexivity.
Qed.

Lemma hmac_Sum_length (key data : list byte) : length (hmac.Sum key data) = 32%nat.
Proof. unfold hmac.Sum. cbv zeta. apply Sum256_length. Qed.

Lemma hmac_hex_nonempty (key data : list byte) :
  hex.EncodeToString (hmac.Sum key data) <> "".
Proof.
  apply hex_encode_nonempty. intros H.
  pose proof (hmac_Sum_length key data) as Hl. rewrite H in Hl. discriminate.
Qed.

(** ** The constant-time comparison decides equality *)

Lemma lor_byte_range (v t : Z) : 0 <= v < 256 -> 0 <= t < 256 -> 0 <= Z.lor v t < 256.
Proof.
  intros Hv Ht. split; [apply Z.lor_nonneg; lia|].
  destruct (Z.eq_dec (Z.lor v t) 0) as [->|Hnz]; [lia|].
  assert (0 < Z.lor v t) by (pose proof (proj2 (Z.lor_nonneg v t)); lia).
  apply (Z.log2_lt_pow2 _ 8); [lia|].
  rewrite Z.log2_lor by lia.
  destruct (Z.eq_dec v 0) as [->|]; destruct (Z.eq_dec t 0) as [->|];
    cbn; try lia;
    apply Z.max_lub_lt; try (apply Z.log2_lt_pow2; lia); cbn; lia.
Qed.

Lemma lxor_byte_range (a b : Z) : 0 <= a < 256 -> 0 <= b < 256 -> 0 <= Z.lxor a b < 256.
Proof.
  intros Ha Hb. split; [apply Z.lxor_nonneg; lia|].
  destruct (Z.eq_dec (Z.lxor a b) 0) as [->|Hnz]; [lia|].
  assert (0 <= Z.lxor a b) by (apply Z.lxor_nonneg; lia).
  apply (Z.log2_lt_pow2 _ 8); [lia|].
  eapply Z.le_lt_trans; [apply Z.log2_lxor; lia|].
  destruct (Z.eq_dec a 0) as [->|]; destruct (Z.eq_dec b 0) as [->|];
    cbn; try lia;
    apply Z.max_lub_lt; try (apply Z.log2_lt_pow2; lia); cbn; lia.
Qed.

Lemma compare_loop_spec (x : list byte) :
  forall (y : list byte) (v : Z) (n : nat),
    length x = length y -> 0 <= v < 256 ->
    exists v', subtle.compare_loop x y v n = (v', (n + length x)%nat)
               /\ 0 <= v' < 256 /\ (v' = 0 <-> v = 0 /\ x = y).
Proof.
  induction x as [|a x IH]; intros [|b y] v n Hlen Hv; try discriminate.
  - exists v. cbn. rewrite Nat.add_0_r. intuition.
  - cbn [subtle.compare_loop].
    pose proof (byte_to_Z_range a) as Ha. pose proof (byte_to_Z_range b) as Hb.
    pose proof (lxor_byte_range _ _ Ha Hb) as Hx.
    destruct (IH y (Z.lor v (Z.lxor (byte_to_Z a) (byte_to_Z b))) (S n))
      as (v' & Heq & Hr & Hz).
    { cbn in Hlen. lia. }
    { apply lor_byte_range; assumption. }
    exists v'. rewrite Heq. cbn [length]. split; [f_equal; lia|]. split; [exact Hr|].
    rewrite Hz, Z.lor_eq_0_iff, Z.lxor_eq_0_iff. split.
    + intros [[Hv0 Hab] ->]. apply byte_to_Z_inj in Hab. subst. auto.
    + intros [Hv0 Hxy]. injection Hxy as -> ->. auto.
Qed.

Lemma ConstantTimeByteEq_zero (v : Z) :
  0 <= v < 256 -> subtle.ConstantTimeByteEq v 0 = (if v =? 0 then 1 else 0).
Proof.
  intros Hv. unfold subtle.ConstantTimeByteEq. rewrite Z.lxor_0_r.
  destruct (Z.eqb_spec v 0) as [->|Hnz]; [reflexivity|].
  rewrite Z.mod_small by lia. rewrite Z.shiftr_div_pow2 by lia.
  apply Z.div_small. lia.
Qed.

Lemma hmac_Equal_spec (x y : list byte) : hmac.Equal x y = true <-> x = y.
Proof.
  unfold hmac.Equal, subtle.ConstantTimeCompare.
  destruct (Nat.eqb_spec (length x) (length y)) as [Hlen|Hlen]; cbn [negb].
  - destruct (compare_loop_spec x y 0 O Hlen ltac:(lia)) as (v' & -> & Hr & Hz).
    cbn [fst]. rewrite ConstantTimeByteEq_zero by exact Hr.
    destruct (Z.eqb_spec v' 0) as [H0|H0]; cbn.
    + split; [intros _; apply Hz; exact H0 | reflexivity].
    + split; [discriminate | intros Hxy; exfalso; apply H0, Hz; auto].
  - cbn. split; [discriminate | intros ->; congruence].
Qed.

(** ** Decimal text: [ParseInt] inverts [%d] *)

Lemma pow2_64 : 2 ^ 64 = 18446744073709551616.
Proof. reflexivity. Qed.

Lemma pow2_63 : 2 ^ 63 = 9223372036854775808.
Proof. reflexivity. Qed.

Lemma digit_cases (d : Z) :
  0 <= d <= 9 ->
  d = 0 \/ d = 1 \/ d = 2 \/ d = 3 \/ d = 4 \/ d = 5 \/ d = 6 \/ d = 7 \/ d = 8 \/ d = 9.
Proof. lia. Qed.

Lemma digit_val_char (d : Z) : 0 <= d <= 9 -> strconv.digit_val (strconv.digit_char d) = Some d.
Proof.
  intros H. destruct (digit_cases d H) as [->|[->|[->|[->|[->|[->|[->|[->|[->| ->]]]]]]]]];
    reflexivity.
Qed.

Lemma digit_char_not_sign (d : Z) :
  0 <= d <= 9 ->
  Ascii.eqb (strconv.digit_char d) "-" = false /\ Ascii.eqb (strconv.digit_char d) "+" = false.
Proof.
  intros H. destruct (digit_cases d H) as [->|[->|[->|[->|[->|[->|[->|[->|[->| ->]]]]]]]]];
    split; reflexivity.
Qed.

(** One more digit read by the loop of [ParseUint], when no overflow occurs. *)
Lemma parse_loop_digit (d n : Z) (s : string) :
  0 <= d <= 9 -> 0 <= n -> n * 10 + d < 2 ^ 64 ->
  strconv.parse_loop (String (strconv.digit_char d) s) n = strconv.parse_loop s (n * 10 + d).
Proof.
  intros Hd Hn Hlt. rewrite pow2_64 in Hlt.
  cbn [strconv.parse_loop]. rewrite (digit_val_char d Hd).
  destruct (Z.geb_spec d 10) as [?|_]; [lia|].
  unfold strconv.cutoff10, strconv.maxUint64. rewrite pow2_64.
  change ((18446744073709551616 - 1) / 10 + 1) with 1844674407370955162.
  destruct (Z.geb_spec n 1844674407370955162) as [?|_]; [lia|].
  cbv zeta.
  rewrite (Z.mod_small (n * 10)) by lia.
  rewrite (Z.mod_small (n * 10 + d)) by lia.
  destruct (Z.ltb_spec (n * 10 + d) (n * 10)) as [?|_]; [lia|].
  destruct (Z.gtb_spec (n * 10 + d) (18446744073709551616 - 1)) as [?|_]; [lia|].
  reflexivity.
Qed.

Lemma fmt_digits_parse (fuel : nat) :
  forall (u : Z) (buf : string),
    0 <= u < 2 ^ 64 -> u < 10 ^ Z.of_nat fuel ->
    strconv.parse_loop (strconv.fmt_digits fuel u buf) 0 = strconv.parse_loop buf u.
Proof.
  induction fuel as [|fuel IH]; intros u buf Hu Hfuel.
  - cbn in Hfuel. assert (u = 0) as -> by lia. reflexivity.
  - cbn [strconv.fmt_digits]. cbv zeta.
    rewrite Nat2Z.inj_succ, Z.pow_succ_r in Hfuel by lia.
    destruct (Z.geb_spec u 10) as [Hge|Hlt].
    + pose proof (Z.div_mod u 10 ltac:(lia)) as Hdm.
      pose proof (Z.mod_pos_bound u 10 ltac:(lia)) as Hm.
      assert (0 <= u / 10) as H0 by (apply Z.div_pos; lia).
      rewrite IH.
      * rewrite parse_loop_digit by lia. f_equal. lia.
      * lia.
      * apply Z.div_lt_upper_bound; lia.
    + replace u with (0 * 10 + u) at 2 by lia.
      apply parse_loop_digit; lia.
Qed.

(** The text written by [fmt_digits] starts with a digit. *)
Lemma fmt_digits_head (fuel : nat) :
  forall (u d : Z) (buf : string),
    0 <= u -> 0 <= d <= 9 ->
    exists d' rest, 0 <= d' <= 9
      /\ strconv.fmt_digits fuel u (String (strconv.digit_char d) buf)
         = String (strconv.digit_char d') rest.
Proof.
  induction fuel as [|fuel IH]; intros u d buf Hu Hd.
  - exists d, buf. auto.
  - cbn [strconv.fmt_digits]. cbv zeta.
    destruct (Z.geb_spec u 10) as [Hge|Hlt].
    + pose proof (Z.div_mod u 10 ltac:(lia)) as Hdm.
      pose proof (Z.mod_pos_bound u 10 ltac:(lia)) as Hm.
      apply IH; [apply Z.div_pos; lia | lia].
    + exists u, (String (strconv.digit_char d) buf). split; [lia | reflexivity].
Qed.

Lemma fmt_digits_S_head (fuel : nat) (u : Z) :
  0 <= u ->
  exists d rest, 0 <= d <= 9
    /\ strconv.fmt_digits (S fuel) u EmptyString = String (strconv.digit_char d) rest.
Proof.
  intros Hu. cbn [strconv.fmt_digits]. cbv zeta.
  destruct (Z.geb_spec u 10) as [Hge|Hlt].
  - pose proof (Z.div_mod u 10 ltac:(lia)) as Hdm.
    pose proof (Z.mod_pos_bound u 10 ltac:(lia)) as Hm.
    apply fmt_digits_head; [apply Z.div_pos; lia | lia].
  - exists u, EmptyString. split; [lia | reflexivity].
Qed.

Lemma fmt_digits_20_head (u : Z) :
  0 <= u ->
  exists d rest, 0 <= d <= 9
    /\ strconv.fmt_digits 20 u EmptyString = String (strconv.digit_char d) rest.
Proof. apply (fmt_digits_S_head 19). Qed.

Lemma ParseUint_fmt (u : Z) :
  0 <= u < 2 ^ 64 -> strconv.ParseUint (strconv.fmt_digits 20 u EmptyString) = (u, None).
Proof.
  intros Hu. destruct (fmt_digits_20_head u ltac:(lia)) as (d & rest & Hd & Heq).
  unfold strconv.ParseUint. rewrite Heq. rewrite <- Heq.
  rewrite fmt_digits_parse; [reflexivity | exact Hu |].
  rewrite pow2_64 in Hu. change (10 ^ Z.of_nat 20) with 100000000000000000000. lia.
Qed.

Lemma int64_range (u : Z) : - 2 ^ 63 <= strconv.int64 u < 2 ^ 63.
Proof.
  unfold strconv.int64. pose proof (Z.mod_pos_bound (u + 2 ^ 63) (2 ^ 64) ltac:(lia)).
  rewrite pow2_63, pow2_64 in *. lia.
Qed.

Lemma int64_small (u : Z) : - 2 ^ 63 <= u < 2 ^ 63 -> strconv.int64 u = u.
Proof.
  intros H. unfold strconv.int64. rewrite pow2_63, pow2_64 in *.
  rewrite Z.mod_small by lia. lia.
Qed.

(** Round trip: the decimal rendering of an [int64] parses back to it. *)
Lemma ParseInt_FormatInt (e : Z) :
  - 2 ^ 63 <= e < 2 ^ 63 -> strconv.ParseInt (strconv.FormatInt e) = (e, None).
Proof.
  intros He. unfold strconv.FormatInt. cbv zeta.
  destruct (Z.ltb_spec e 0) as [Hneg|Hpos].
  - assert ((- e) mod 2 ^ 64 = - e) as ->
        by (rewrite pow2_63, pow2_64 in *; apply Z.mod_small; lia).
    unfold strconv.ParseInt.
    change (Ascii.eqb "-" "-") with true. change (Ascii.eqb "-" "+") with false.
    cbn [orb]. rewrite ParseUint_fmt by (rewrite pow2_63, pow2_64 in *; lia).
    cbn [negb andb]. cbv zeta.
    destruct (Z.gtb_spec (- e) (2 ^ 63)) as [?|_]; [lia|].
    destruct (Z.eq_dec e (- 2 ^ 63)) as [->|Hne]; [reflexivity|].
    rewrite (int64_small (- e)) by lia. rewrite Z.opp_involutive, int64_small by lia.
    reflexivity.
  - assert (e mod 2 ^ 64 = e) as ->
        by (rewrite pow2_63, pow2_64 in *; apply Z.mod_small; lia).
    destruct (fmt_digits_20_head e Hpos) as (d & rest & Hd & Heq).
    destruct (digit_char_not_sign d Hd) as [Hm Hp].
    unfold strconv.ParseInt. rewrite Heq, Hm, Hp. cbn [orb]. rewrite <- Heq.
    rewrite ParseUint_fmt by (rewrite pow2_63, pow2_64 in *; lia).
    cbn [negb andb]. cbv zeta.
    destruct (Z.geb_spec e (2 ^ 63)) as [?|_]; [lia|].
    rewrite int64_small by lia. reflexivity.
Qed.

(** A successful parse yields an [int64]. *)
Lemma ParseInt_range (s : string) (e : Z) :
  strconv.ParseInt s = (e, None) -> - 2 ^ 63 <= e < 2 ^ 63.
Proof.
  unfold strconv.ParseInt. destruct s as [|c0 s']; [discriminate|].
  cbv zeta. destruct (strconv.ParseUint _) as [un err].
  destruct err as [[|]|]; try discriminate;
    repeat match goal with
           | |- context [if ?b then _ else _] => destruct b
           end; intros [= <-]; try discriminate; apply int64_range.
Qed.

Lemma ParseInt_nonempty (s : string) (e : Z) :
  strconv.ParseInt s = (e, None) -> s <> "".
Proof. destruct s; [discriminate | congruence]. Qed.




Lemma parse_loop_range_value (s : string) :
  forall (n v : Z), strconv.parse_loop s n = (v, Some strconv.ErrRange) -> v = strconv.maxUint64.
Proof.
  induction s as [|c s IH]; intros n v H; [discriminate|].
  cbn [strconv.parse_loop] in H.
  destruct (strconv.digit_val c) as [d|]; [|discriminate].
  destruct (d >=? 10); [discriminate|].
  destruct (n >=? strconv.cutoff10); [congruence|].
  cbv zeta in H.
  match type of H with
  | (if ?b then _ else _) = _ => destruct b; [congruence | eapply IH, H]
  end.
Qed.

Lemma ParseUint_range_value (s : string) (v : Z) :
  strconv.ParseUint s = (v, Some strconv.ErrRange) -> v = strconv.maxUint64.
Proof.
  destruct s as [|c s]; [discriminate|]. unfold strconv.ParseUint. apply parse_loop_range_value.
Qed.




(** ** The signed string determines its three fields *)







(** ** Start-up *)

(** [init] panics unless the secret key is set; the configuration it yields
    has a non-empty key and a non-empty storage directory. *)
Lemma init_config (environ : list (string * string)) (uploadDirPath secretKey : string) :
  init environ = Some (uploadDirPath, secretKey) -> secretKey <> "" /\ uploadDirPath <> "".
Proof.
  unfold init. cbv zeta.
  destruct (String.eqb_spec (getEnv environ "SECRET_KEY" "") "") as [|Hkey]; [discriminate|].
  intros [= <- <-]. split; [exact Hkey|].
  unfold getEnv. destruct (assoc "UPLOAD_DIR_PATH" environ) as [v|]; [|discriminate].
  destruct (String.eqb_spec v ""); [discriminate | assumption].
Qed.

(** ** The token validator *)

(** The expected signature of [validateUrl] is what the signing script mints. *)
Lemma expected_signature (secretKey method filename : string) (e : Z) :
  hex.EncodeToString (hmac.Sum (bytes secretKey) (bytes (Sprintf_s_s_d method filename e)))
  = generate_signed_url.signature secretKey method (Some filename) e.
Proof. reflexivity. Qed.

(** [validateUrl] once its query parameters are known to parse. *)
Lemma validateUrl_parsed (secretKey : string) (now : Z) (c : gin.Context) (e : Z) :
  strconv.ParseInt (gin.Query c "expires") = (e, None) ->
  gin.Query c "signature" <> "" ->
  validateUrl secretKey now c
  = negb (now >? e)
    && hmac.Equal (bytes (gin.Query c "signature"))
         (bytes (generate_signed_url.signature secretKey (Method (gin.Request c))
                   (Some (gin.Param c "filename")) e)).
Proof.
  intros Hparse Hsig. unfold validateUrl.
  pose proof (ParseInt_nonempty _ _ Hparse) as Hexp.
  destruct (String.eqb_spec (gin.Query c "expires") "") as [?|_]; [contradiction|].
  destruct (String.eqb_spec (gin.Query c "signature") "") as [?|_]; [contradiction|].
  cbn [orb]. rewrite Hparse. cbn [orb].
  destruct (now >? e); reflexivity.
Qed.

Lemma Query_present (c : gin.Context) (key : string) :
  gin.Query c key <> "" <-> exists v, gin.GetQuery c key = Some v /\ v <> "".
Proof.
  unfold gin.Query. destruct (gin.GetQuery c key) as [v|]; cbn.
  - split; [eauto | intros (v' & [= <-] & H); exact H].
  - split; [congruence | intros (v' & [=] & _)].
Qed.

(** A correctly signed token is accepted until its expiry, inclusive. *)
Lemma validateUrl_signed (secretKey : string) (now : Z) (c : gin.Context) (e : Z) :
  strconv.ParseInt (gin.Query c "expires") = (e, None) ->
  gin.Query c "signature"
  = generate_signed_url.signature secretKey (Method (gin.Request c))
      (Some (gin.Param c "filename")) e ->
  validateUrl secretKey now c = negb (now >? e).
Proof.
  intros Hparse Hsig.
  rewrite (validateUrl_parsed secretKey now c e Hparse).
  - rewrite Hsig. rewrite (proj2 (hmac_Equal_spec _ _) eq_refl). apply andb_true_r.
  - rewrite Hsig. apply hmac_hex_nonempty.
Qed.

(** C1: the validator accepts exactly when both query parameters are present
    and non-empty, [expires] parses as a base-10 64-bit integer [e], the
    current Unix time does not exceed [e], and [signature] equals the
    lowercase hexadecimal HMAC-SHA256, under the secret key, of
    method ":" filename ":" e with [e] in decimal. *)
Theorem validateUrl_accepts_iff (secretKey : string) (now : Z) (c : gin.Context) :
  validateUrl secretKey now c = true <->
  exists (expireStr signature : string) (e : Z),
    gin.GetQuery c "expires" = Some expireStr /\ expireStr <> "" /\
    gin.GetQuery c "signature" = Some signature /\ signature <> "" /\
    strconv.ParseInt expireStr = (e, None) /\
    now <= e /\
    signature =
      hex.EncodeToString
        (hmac.Sum (bytes secretKey)
           (bytes (Method (gin.Request c) +:+ ":" +:+ gin.Param c "filename" +:+ ":"
                   +:+ strconv.FormatInt e))).
Proof.
  split.
  - intros Hok. unfold validateUrl in Hok.
    destruct (String.eqb_spec (gin.Query c "expires") "") as [?|Hexp]; [discriminate|].
    destruct (String.eqb_spec (gin.Query c "signature") "") as [?|Hsig]; [discriminate|].
    cbn [orb] in Hok.
    destruct (strconv.ParseInt (gin.Query c "expires")) as [e err] eqn:Hparse.
    destruct err; [discriminate|]. cbn [orb] in Hok.
    destruct (Z.gtb_spec now e) as [?|Hle]; [discriminate|].
    apply hmac_Equal_spec, bytes_inj in Hok.
    apply Query_present in Hexp as (es & Hes & Hes').
    apply Query_present in Hsig as (sg & Hsg & Hsg').
    unfold gin.Query in Hparse, Hok. rewrite Hes in Hparse. rewrite Hsg in Hok.
    cbn [default] in Hparse, Hok.
    exists es, sg, e. repeat split; try assumption; lia.
  - intros (es & sg & e & Hes & Hes' & Hsg & Hsg' & Hparse & Hle & Heq).
    assert (gin.Query c "expires" = es) as Hqe by (unfold gin.Query; rewrite Hes; reflexivity).
    assert (gin.Query c "signature" = sg) as Hqs by (unfold gin.Query; rewrite Hsg; reflexivity).
    rewrite (validateUrl_parsed secretKey now c e); rewrite ?Hqe, ?Hqs; try assumption.
    apply andb_true_intro. split.
    + destruct (Z.gtb_spec now e); [lia | reflexivity].
    + apply hmac_Equal_spec. rewrite Heq. reflexivity.
Qed.

(** C2: for a correctly signed token the validator accepts when the current
    time equals [expires], and it rejects exactly when the current time is
    strictly greater; one second after [expires] it rejects. *)
Theorem expiry_is_strict (secretKey : string) (now : Z) (c : gin.Context) (e : Z) :
  strconv.ParseInt (gin.Query c "expires") = (e, None) ->
  gin.Query c "signature"
  = generate_signed_url.signature secretKey (Method (gin.Request c))
      (Some (gin.Param c "filename")) e ->
  (now = e -> validateUrl secretKey now c = true)
  /\ (validateUrl secretKey now c = false <-> now > e)
  /\ (e = now - 1 -> validateUrl secretKey now c = false).
Proof.
  intros Hparse Hsig.
  rewrite (validateUrl_signed secretKey now c e Hparse Hsig).
  destruct (Z.gtb_spec now e); cbn; repeat split; intros; try lia; congruence.
Qed.

(** C10: [expires] is normalized before the signature is checked.  A request
    whose [expires] text parses to [e] validates exactly as the request that
    differs from it only in carrying the decimal rendering of [e]; with the
    signature minted for that rendering the outcome is [now <= e]. *)
Theorem expires_is_normalized (secretKey : string) (now : Z) (c c' : gin.Context) (e : Z) :
  Method (gin.Request c) = Method (gin.Request c') ->
  gin.Param c "filename" = gin.Param c' "filename" ->
  gin.Query c "signature" = gin.Query c' "signature" ->
  strconv.ParseInt (gin.Query c "expires") = (e, None) ->
  gin.Query c' "expires" = strconv.FormatInt e ->
  validateUrl secretKey now c = validateUrl secretKey now c'
  /\ (gin.Query c "signature"
      = generate_signed_url.signature secretKey (Method (gin.Request c))
          (Some (gin.Param c "filename")) e ->
      validateUrl secretKey now c = (now <=? e)).
Proof.
  intros Hm Hf Hs Hparse Hcanon.
  assert (strconv.ParseInt (gin.Query c' "expires") = (e, None)) as Hparse'.
  { rewrite Hcanon. apply ParseInt_FormatInt. eapply ParseInt_range, Hparse. }
  split.
  - destruct (string_dec (gin.Query c "signature") "") as [Hempty|Hne].
    + unfold validateUrl. rewrite <- Hs, Hempty.
      change (String.eqb "" "") with true. rewrite !orb_true_r. reflexivity.
    + rewrite (validateUrl_parsed secretKey now c e Hparse Hne).
      rewrite (validateUrl_parsed secretKey now c' e Hparse') by congruence.
      rewrite Hm, Hf, Hs. reflexivity.
  - intros Hsig.
    rewrite (validateUrl_signed secretKey now c e Hparse Hsig).
    destruct (Z.gtb_spec now e), (Z.leb_spec now e); cbn; try reflexivity; lia.
Qed.

(** ** Routing *)

Lemma match_param_inv (p : string) (ps : list (string * string)) :
  match_pattern (WithParam "/images/" "filename") p = Some ps ->
  exists name, ps = [("filename", name)] /\ name <> "".
Proof.
  unfold match_pattern. destruct (strip_prefix "/images/" p) as [seg|]; [|discriminate].
  destruct (String.eqb_spec seg "") as [?|Hne]; [discriminate|]. cbn [orb].
  destruct (existsb _ _); [discriminate|]. intros [= <-]. eauto.
Qed.

Lemma match_exact_inv (q p : string) (ps : list (string * string)) :
  match_pattern (Exact q) p = Some ps -> ps = [] /\ p = q.
Proof.
  unfold match_pattern. destruct (String.eqb_spec q p) as [->|]; [|discriminate].
  intros [= <-]. auto.
Qed.

(** What a matched route says about the request. *)
Lemma find_route_inv (r : Request) (rt : route) (ps : list (string * string)) :
  find_route main r = Some (rt, ps) ->
  match rt with
  | Root => Method r = "GET" /\ ps = []
  | PostImage => Method r = "POST" /\ ps = []
  | GetImage => Method r = "GET" /\ exists name, ps = [("filename", name)] /\ name <> ""
  | PutImage => Method r = "PUT" /\ exists name, ps = [("filename", name)] /\ name <> ""
  | DeleteImage => Method r = "DELETE" /\ exists name, ps = [("filename", name)] /\ name <> ""
  end.
Proof.
  unfold find_route, main.
  repeat match goal with
         | |- context [String.eqb ?m (Method r)] =>
             destruct (String.eqb_spec m (Method r))
         | |- context [match_pattern ?pat ?p] =>
             let H := fresh "Hpat" in destruct (match_pattern pat p) eqn:H
         end;
    intros [= <- <-]; try congruence;
    repeat match goal with
           | H : match_pattern (Exact _) _ = Some _ |- _ => apply match_exact_inv in H as [-> _]
           | H : match_pattern (WithParam _ _) _ = Some _ |- _ => apply match_param_inv in H
           end; auto.
Qed.


(** ** The comparison of the signatures *)


(** The scan that stops early takes a number of steps that tells where the
    first difference lies. *)
Lemma short_circuit_compare_leaks :
  snd (subtle.short_circuit_compare (bytes "Xbcd") (bytes "abcd") O) = 1%nat
  /\ snd (subtle.short_circuit_compare (bytes "abcX") (bytes "abcd") O) = 4%nat.
Proof. split; reflexivity. Qed.


(** ** The handlers *)

Arguments validateUrl : simpl never.
Arguments find : simpl never.
Arguments write_file : simpl never.
Arguments gin.Param : simpl never.
Arguments gin.writeContentType : simpl never.
Arguments http.file_part : simpl never.
Arguments filepath.Ext : simpl never.

Ltac unfold_monad :=
  unfold gin.Next, gin.loop, gin.incr_index, gin.Abort, gin.JSON, gin.IndentedJSON, gin.render,
    gin.Header, gin.File, time.NowUnix, os.Stat, os.Open, os.MkdirAll, os.Create, os.Remove,
    io.Copy, uuid.NewString, http.FormFile, record_call, with_index, with_writer, with_disk, get,
    mbind, M_bind, mret, M_ret.

(** Runs the request through the engine up to the first choice that depends
    on the world or on the request. *)
Ltac serve Hroute :=
  unfold ServeHTTP, handleHTTPRequest; rewrite Hroute;
  unfold handlers, SignedURLMiddleware, getImageHandler, postImageHandler, putImageHandler,
    deleteImageHandler, rootHandler, fresh;
  unfold_monad; simpl.


Lemma find_dir (dir : string) (d : gmap string (gmap string (list byte))) :
  find (filepath.Dir dir) d = match d !! dir with Some _ => Some Directory | None => None end.
Proof. reflexivity. Qed.

Lemma find_written (dir name : string) (data : list byte)
    (d : gmap string (gmap string (list byte))) :
  is_Some (d !! dir) ->
  find (filepath.Join dir name) (write_file (filepath.Join dir name) data d)
  = Some (Regular data).
Proof.
  intros [entries Hd]. unfold find, write_file. rewrite Hd.
  rewrite lookup_insert_eq, lookup_insert_eq. reflexivity.
Qed.

Lemma write_written (p : filepath.path) (a b : list byte)
    (d : gmap string (gmap string (list byte))) :
  write_file p b (write_file p a d) = write_file p b d.
Proof.
  destruct p as [dir|dir name]; [reflexivity|]. unfold write_file.
  destruct (d !! dir) as [entries|] eqn:Hd; [|rewrite Hd; reflexivity].
  rewrite lookup_insert_eq, !insert_insert_eq. reflexivity.
Qed.


(** C9: on each of the four protected routes a request that fails
    validation is answered with 403 and one fixed message, whatever check
    failed; the chain is aborted, its outcome is the same whatever handler
    follows the middleware, no call is logged and the world is left as it
    was. *)
Theorem rejected_is_403 (uploadDirPath secretKey : string) (TypeByExtension : string -> string)
    (wd : World) (r : Request) (rt : route) (ps : list (string * string)) :
  find_route main r = Some (rt, ps) ->
  rt <> Root ->
  validateUrl secretKey (clock wd) {| gin.Request := r; gin.Params := ps |} = false ->
  let s := ServeHTTP uploadDirPath secretKey TypeByExtension wd r in
  writer s
  = {| Status := 403;
       HeaderMap := {[ "Content-Type" := "application/json; charset=utf-8" ]};
       Written := JSONBody false [("error", JString "Invalid or expired URL")] |}
  /\ world s = wd
  /\ calls s = []
  /\ gin.abortIndex <= index s
  /\ (forall h : gin.HandlerFunc,
         snd (gin.Next {| gin.Request := r; gin.Params := ps |}
                [SignedURLMiddleware secretKey; h] (fresh wd)) = s).
Proof.
  intros Hroute Hrt Hvalid s. subst s.
  assert (forall h : gin.HandlerFunc,
             snd (gin.Next {| gin.Request := r; gin.Params := ps |}
                    [SignedURLMiddleware secretKey; h] (fresh wd))
             = {| world := wd;
                  writer :=
                    {| Status := 403;
                       HeaderMap := {[ "Content-Type" := "application/json; charset=utf-8" ]};
                       Written := JSONBody false [("error", JString "Invalid or expired URL")] |};
                  index := 64;
                  calls := [] |}) as Hchain.
  { intros h. unfold SignedURLMiddleware, fresh. unfold_monad. simpl.
    rewrite Hvalid. simpl. unfold gin.writeContentType.
    rewrite lookup_empty, insert_empty. reflexivity. }
  assert (ServeHTTP uploadDirPath secretKey TypeByExtension wd r
          = snd (gin.Next {| gin.Request := r; gin.Params := ps |}
                   (handlers uploadDirPath secretKey TypeByExtension rt) (fresh wd))) as ->.
  { unfold ServeHTTP, handleHTTPRequest. rewrite Hroute. reflexivity. }
  destruct rt; [congruence| | | |]; unfold handlers; rewrite !Hchain;
    cbn [writer world calls index]; unfold gin.abortIndex;
    (repeat split; [lia | intros h; apply Hchain]).
Qed.



(** C6: a POST that passes validation is answered with 400 when the body has
    no part named file; with 500 when the creation of the directory, the
    creation of the file or the copy fails; and otherwise with 200 and the
    generated name (identifier plus the original extension), the original
    name and the size in bytes, the uploaded bytes being stored under the
    generated name. *)
Theorem post_outcomes (uploadDirPath secretKey : string) (TypeByExtension : string -> string)
    (wd : World) (r : Request) (ps : list (string * string)) :
  find_route main r = Some (PostImage, ps) ->
  validateUrl secretKey (clock wd) {| gin.Request := r; gin.Params := ps |} = true ->
  let s := ServeHTTP uploadDirPath secretKey TypeByExtension wd r in
  let mkdir_fails := disk wd !! uploadDirPath = None /\ MkdirAllFails wd = true in
  (http.file_part r "file" = None -> Status (writer s) = 400 /\ world s = wd)
  /\ (forall fileHeader : FileHeader,
         http.file_part r "file" = Some fileHeader ->
         let newFileName := nextUUID wd +:+ filepath.Ext (Filename fileHeader) in
         (mkdir_fails \/ CreateFails wd = true \/ is_Some (CopyFails wd) ->
          Status (writer s) = 500)
         /\ (~ mkdir_fails -> CreateFails wd = false -> CopyFails wd = None ->
             Status (writer s) = 200
             /\ Written (writer s)
                = JSONBody true
                    [("message", JString "File uploaded");
                     ("filename", JString newFileName);
                     ("original_filename", JString (Filename fileHeader));
                     ("size", JNumber (Z.of_nat (length (Content fileHeader))))]
             /\ find (filepath.Join uploadDirPath newFileName) (disk (world s))
                = Some (Regular (Content fileHeader)))).
Proof.
  intros Hroute Hvalid s mkdir_fails. subst s mkdir_fails.
  serve Hroute. rewrite Hvalid. simpl.
  destruct (http.file_part r "file") as [fh|] eqn:Hpart; simpl.
  2:{ split; [auto | intros; discriminate]. }
  split; [discriminate|]. intros fileHeader [= <-]. rewrite find_dir.
  destruct (disk wd !! uploadDirPath) as [entries|] eqn:Hdir; simpl.
  - (* the directory exists *)
    destruct (CreateFails wd); simpl.
    { split; [auto | intros; discriminate]. }
    rewrite Hdir. simpl.
    destruct (CopyFails wd) as [k|]; simpl.
    { split; [auto | intros; discriminate]. }
    split.
    + intros [[? _]|[?|[? ?]]]; discriminate.
    + intros _ _ _. rewrite write_written. rewrite find_written by eauto. auto.
  - (* the directory is missing *)
    destruct (MkdirAllFails wd); simpl.
    + destruct (CreateFails wd); simpl; [|rewrite Hdir; simpl];
        (split; [auto | intros Hn; exfalso; apply Hn; auto]).
    + rewrite Hdir. simpl. destruct (CreateFails wd); simpl.
      { split; [auto | intros; discriminate]. }
      rewrite lookup_insert_eq. simpl.
      destruct (CopyFails wd) as [k|]; simpl.
      { split; [auto | intros; discriminate]. }
      split.
      * intros [[_ ?]|[?|[? ?]]]; discriminate.
      * intros _ _ _. rewrite write_written. rewrite find_written; [auto|].
        rewrite lookup_insert_eq. eauto.
Qed.

(** ** Test vectors and concrete runs *)

Example sha256_abc :
  hex.EncodeToString (sha256.Sum256 (bytes "abc"))
  = "ba7816bf8f01cfea414140de5dae2223b00361a396177a9cb410ff61f20015ad".
Proof. vm_compute. reflexivity. Qed.

Example hmac_rfc4231_case2 :
  hex.EncodeToString (hmac.Sum (bytes "Jefe") (bytes "what do ya want for nothing?"))
  = "5bdcc146bf60754e6a042426089575c75a003f089d2739839dec58b964ec3843".
Proof. vm_compute. reflexivity. Qed.

Example signature_of_the_spec_scenario :
  generate_signed_url.signature "s3cr3t" "GET" (Some "a.jpg") 1999999999
  = "b68802791cbb7e750e48225bb32333f6d241b6eef2e98e19f5c7871fa846bbed".
Proof. vm_compute. reflexivity. Qed.

Example generateSignedUrl_get :
  generate_signed_url.generateSignedUrl "s3cr3t" "http://localhost:8000" 1999996399
    "GET" (Some "a.jpg") 3600
  = "http://localhost:8000/images/a.jpg?expires=1999999999&signature=b68802791cbb7e750e48225bb32333f6d241b6eef2e98e19f5c7871fa846bbed".
Proof. vm_compute. reflexivity. Qed.

Example Ext_examples :
  filepath.Ext "a.jpg" = ".jpg" /\ filepath.Ext "a.b/c" = "" /\ filepath.Ext "x.tar.gz" = ".gz"
  /\ filepath.Ext "noext" = "" /\ filepath.Ext "a.b/c.d" = ".d".
Proof. vm_compute. repeat split. Qed.

Example ParseInt_examples :
  strconv.ParseInt "+123" = (123, None) /\ strconv.ParseInt "0123" = (123, None)
  /\ strconv.ParseInt "-9223372036854775808" = (-9223372036854775808, None)
  /\ strconv.ParseInt "9223372036854775808" = (9223372036854775807, Some strconv.ErrRange)
  /\ strconv.ParseInt "12a" = (0, Some strconv.ErrSyntax)
  /\ strconv.ParseInt "+" = (0, Some strconv.ErrSyntax)
  /\ strconv.FormatInt (-9223372036854775808) = "-9223372036854775808".
Proof. vm_compute. repeat split. Qed.

(** ** The theorems at concrete requests *)

Lemma validateUrl_accepts_iff_witness :
  validateUrl Scenario.secret 1999999999 (Scenario.at_a Scenario.getA) = true.
Proof.
  apply (proj2 (validateUrl_accepts_iff Scenario.secret 1999999999 (Scenario.at_a Scenario.getA))).
  exists "1999999999",
    "b68802791cbb7e750e48225bb32333f6d241b6eef2e98e19f5c7871fa846bbed", 1999999999.
  split; [vm_compute; reflexivity|].
  split; [discriminate|].
  split; [vm_compute; reflexivity|].
  split; [discriminate|].
  split; [vm_compute; reflexivity|].
  split; [lia|].
  vm_compute. reflexivity.
Defined.

Lemma expiry_is_strict_witness :
  strconv.ParseInt (gin.Query (Scenario.at_a Scenario.getA) "expires") = (1999999999, None)
  /\ validateUrl Scenario.secret 1999999999 (Scenario.at_a Scenario.getA) = true
  /\ validateUrl Scenario.secret 2000000000 (Scenario.at_a Scenario.getA) = false.
Proof.
  assert (strconv.ParseInt (gin.Query (Scenario.at_a Scenario.getA) "expires")
          = (1999999999, None)) as H1 by (vm_compute; reflexivity).
  assert (gin.Query (Scenario.at_a Scenario.getA) "signature"
          = generate_signed_url.signature Scenario.secret
              (Method (gin.Request (Scenario.at_a Scenario.getA)))
              (Some (gin.Param (Scenario.at_a Scenario.getA) "filename")) 1999999999) as H2
      by (vm_compute; reflexivity).
  split; [exact H1|]. split.
  - apply (proj1 (expiry_is_strict Scenario.secret 1999999999 _ _ H1 H2)). reflexivity.
  - apply (proj2 (proj2 (expiry_is_strict Scenario.secret 2000000000 _ _ H1 H2))). reflexivity.
Defined.




Lemma post_outcomes_witness :
  find_route main Scenario.postPhoto = Some (PostImage, [])
  /\ Status (writer (ServeHTTP Scenario.uploads Scenario.secret Scenario.mimeTable
                       (Scenario.world0 1700000000) Scenario.postPhoto)) = 200.
Proof.
  assert (find_route main Scenario.postPhoto = Some (PostImage, [])) as H1
      by (vm_compute; reflexivity).
  split; [exact H1|].
  destruct (post_outcomes Scenario.uploads Scenario.secret Scenario.mimeTable
              (Scenario.world0 1700000000) Scenario.postPhoto _ H1) as (_ & Hfile).
  - vm_compute. reflexivity.
  - destruct (Hfile Scenario.photo) as (_ & Hok); [vm_compute; reflexivity|].
    apply Hok; [|reflexivity|reflexivity].
    vm_compute. intros [Hdir _]. discriminate Hdir.
Defined.



Lemma rejected_is_403_witness :
  find_route main Scenario.putWithGetToken = Some (PutImage, [("filename", "a.jpg")])
  /\ Status (writer (ServeHTTP Scenario.uploads Scenario.secret Scenario.mimeTable
                       (Scenario.world0 1700000000) Scenario.putWithGetToken)) = 403
  /\ world (ServeHTTP Scenario.uploads Scenario.secret Scenario.mimeTable
              (Scenario.world0 1700000000) Scenario.putWithGetToken)
     = Scenario.world0 1700000000.
Proof.
  assert (find_route main Scenario.putWithGetToken
          = Some (PutImage, [("filename", "a.jpg")])) as H1 by (vm_compute; reflexivity).
  split; [exact H1|].
  destruct (rejected_is_403 Scenario.uploads Scenario.secret Scenario.mimeTable
              (Scenario.world0 1700000000) Scenario.putWithGetToken _ _ H1)
    as (Hw & Hworld & _ & _ & _).
  - discriminate.
  - vm_compute. reflexivity.
  - split; [rewrite Hw; reflexivity | exact Hworld].
Defined.

Lemma expires_is_normalized_witness :
  strconv.ParseInt (gin.Query (Scenario.at_a Scenario.getPlus) "expires") = (1999999999, None)
  /\ validateUrl Scenario.secret 1700000000 (Scenario.at_a Scenario.getPlus)
     = validateUrl Scenario.secret 1700000000 (Scenario.at_a Scenario.getA).
Proof.
  assert (strconv.ParseInt (gin.Query (Scenario.at_a Scenario.getPlus) "expires")
          = (1999999999, None)) as H1 by (vm_compute; reflexivity).
  split; [exact H1|].
  apply (proj1 (expires_is_normalized Scenario.secret 1700000000
                  (Scenario.at_a Scenario.getPlus) (Scenario.at_a Scenario.getA) 1999999999
                  eq_refl eq_refl eq_refl H1 eq_refl)).
Defined.

(** * Further properties of the code *)

(** ** Start-up configuration *)

Lemma getEnv_unset (environ : list (string * string)) (key defaultValue : string) :
  assoc key environ = None \/ assoc key environ = Some "" ->
  getEnv environ key defaultValue = defaultValue.
Proof. unfold getEnv. intros [->| ->]; reflexivity. Qed.

Lemma getEnv_set (environ : list (string * string)) (key defaultValue value : string) :
  assoc key environ = Some value -> value <> "" -> getEnv environ key defaultValue = value.
Proof.
  unfold getEnv. intros -> Hne. destruct (String.eqb_spec value ""); [contradiction | reflexivity].
Qed.

(** X1: [init] panics exactly when SECRET_KEY is unset or set to the empty
    string; otherwise the key is the variable's value and the storage
    directory is the value of UPLOAD_DIR_PATH, or uploads when that one is
    unset or empty. *)
Theorem init_requires_secret (environ : list (string * string)) :
  (init environ = None
   <-> assoc "SECRET_KEY" environ = None \/ assoc "SECRET_KEY" environ = Some "")
  /\ (forall key : string,
         assoc "SECRET_KEY" environ = Some key -> key <> "" ->
         (forall dir : string,
             assoc "UPLOAD_DIR_PATH" environ = Some dir -> dir <> "" ->
             init environ = Some (dir, key))
         /\ (assoc "UPLOAD_DIR_PATH" environ = None
             \/ assoc "UPLOAD_DIR_PATH" environ = Some "" ->
             init environ = Some ("uploads", key))).
Proof.
  split.
  - unfold init. cbv zeta. split.
    + destruct (String.eqb_spec (getEnv environ "SECRET_KEY" "") "") as [He|]; [|discriminate].
      intros _. unfold getEnv in He.
      destruct (assoc "SECRET_KEY" environ) as [v|]; [|auto].
      destruct (String.eqb_spec v ""); [subst; auto | contradiction].
    + intros H. rewrite (getEnv_unset _ _ _ H). reflexivity.
  - intros key Hkey Hne. unfold init. cbv zeta.
    rewrite (getEnv_set _ _ _ _ Hkey Hne).
    destruct (String.eqb_spec key ""); [contradiction|]. split.
    + intros dir Hdir Hd. rewrite (getEnv_set _ _ _ _ Hdir Hd). reflexivity.
    + intros H. rewrite (getEnv_unset _ _ _ H). reflexivity.
Qed.

Lemma init_requires_secret_witness :
  init [("SECRET_KEY", "s3cr3t"); ("UPLOAD_DIR_PATH", "")] = Some ("uploads", "s3cr3t")
  /\ init [("SECRET_KEY", ""); ("SECRET_KEY", "late")] = None.
Proof.
  split.
  - apply (proj2 (init_requires_secret [("SECRET_KEY", "s3cr3t"); ("UPLOAD_DIR_PATH", "")])
             "s3cr3t"); [reflexivity | discriminate | right; reflexivity].
  - apply (proj1 (init_requires_secret [("SECRET_KEY", ""); ("SECRET_KEY", "late")])).
    right. reflexivity.
Defined.

(** X2: [main] never panics on [port[0]], since [getEnv] falls back to a
    non-empty default, and the address it listens on always starts with a
    colon: the configured port as it is, or with a colon put in front. *)
Theorem listenAddr_has_colon (environ : list (string * string)) :
  exists rest : string,
    listenAddr environ = Some (String ":" rest)
    /\ (String ":" rest = getEnv environ "SERVER_PORT" ":8000"
        \/ rest = getEnv environ "SERVER_PORT" ":8000").
Proof.
  unfold listenAddr. cbv zeta.
  assert (getEnv environ "SERVER_PORT" ":8000" <> "") as Hne.
  { unfold getEnv. destruct (assoc "SERVER_PORT" environ) as [v|]; [|discriminate].
    destruct (String.eqb_spec v ""); [discriminate | assumption]. }
  destruct (getEnv environ "SERVER_PORT" ":8000") as [|c port]; [contradiction|].
  destruct (Ascii.eqb_spec c ":") as [->|Hc]; cbn [negb].
  - exists port. auto.
  - exists (String c port). auto.
Qed.

(** ** More on the validator *)

Lemma validateUrl_inv (secretKey : string) (now : Z) (c : gin.Context) :
  validateUrl secretKey now c = true ->
  exists e : Z,
    strconv.ParseInt (gin.Query c "expires") = (e, None)
    /\ now <= e
    /\ gin.Query c "signature"
       = generate_signed_url.signature secretKey (Method (gin.Request c))
           (Some (gin.Param c "filename")) e.
Proof.
  intros Hok. unfold validateUrl in Hok.
  destruct (String.eqb (gin.Query c "expires") ""); [discriminate|].
  destruct (String.eqb (gin.Query c "signature") ""); [discriminate|].
  cbn [orb] in Hok.
  destruct (strconv.ParseInt (gin.Query c "expires")) as [e err].
  destruct err; [discriminate|]. cbn [orb] in Hok.
  destruct (Z.gtb_spec now e) as [?|Hle]; [discriminate|].
  apply hmac_Equal_spec, bytes_inj in Hok.
  exists e. repeat split; [lia | exact Hok].
Qed.

(** X3: a token never becomes valid again: a request accepted at some time
    is accepted at every earlier time, so one rejected is rejected ever
    after. *)
Theorem validateUrl_antitone (secretKey : string) (now now' : Z) (c : gin.Context) :
  now' <= now ->
  (validateUrl secretKey now c = true -> validateUrl secretKey now' c = true)
  /\ (validateUrl secretKey now' c = false -> validateUrl secretKey now c = false).
Proof.
  intros Hle.
  assert (validateUrl secretKey now c = true -> validateUrl secretKey now' c = true) as Himp.
  { intros Hok. apply validateUrl_inv in Hok as (e & Hparse & He & Hsig).
    rewrite (validateUrl_signed secretKey now' c e Hparse Hsig).
    destruct (Z.gtb_spec now' e); [lia | reflexivity]. }
  split; [exact Himp|].
  intros Hrej. destruct (validateUrl secretKey now c); [|reflexivity].
  rewrite Himp in Hrej by reflexivity. discriminate.
Qed.

Lemma hex_length (l : list byte) :
  String.length (hex.EncodeToString l) = (2 * length l)%nat.
Proof. induction l as [|v l IH]; cbn [hex.EncodeToString String.length length]; lia. Qed.

Lemma hex_pair_lower (v : byte) : all_chars is_lower_hex (hex.EncodeToString [v]) = true.
Proof. destruct v; vm_compute; reflexivity. Qed.

Lemma hex_lower (l : list byte) : all_chars is_lower_hex (hex.EncodeToString l) = true.
Proof.
  induction l as [|v l IH]; [reflexivity|].
  pose proof (hex_pair_lower v) as Hv.
  cbn [hex.EncodeToString all_chars] in *.
  apply andb_prop in Hv as [Ha Hb]. apply andb_prop in Hb as [Hb _].
  rewrite Ha, Hb, IH. reflexivity.
Qed.

Lemma digit_val_small (c : ascii) (d : Z) :
  strconv.digit_val c = Some d -> (d >=? 10) = false -> is_digit c = true.
Proof.
  unfold strconv.digit_val, is_digit. cbv zeta.
  destruct ((48 <=? Z.of_N (N_of_ascii c)) && (Z.of_N (N_of_ascii c) <=? 57)); [reflexivity|].
  destruct ((97 <=? Z.lor (Z.of_N (N_of_ascii c)) 32)
            && (Z.lor (Z.of_N (N_of_ascii c)) 32 <=? 122)) eqn:Hl; [|discriminate].
  intros [= <-] Hd. apply andb_prop in Hl as [Hl _].
  destruct (Z.geb_spec (Z.lor (Z.of_N (N_of_ascii c)) 32 - 97 + 10) 10); [discriminate|]. lia.
Qed.

Lemma parse_loop_digits (s : string) :
  forall n v : Z, strconv.parse_loop s n = (v, None) -> all_chars is_digit s = true.
Proof.
  induction s as [|c s IH]; intros n v H; [reflexivity|].
  cbn [strconv.parse_loop] in H. cbn [all_chars].
  destruct (strconv.digit_val c) as [d|] eqn:Hd; [|discriminate].
  destruct (d >=? 10) eqn:Hge; [discriminate|].
  rewrite (digit_val_small c d Hd Hge). cbn [andb].
  destruct (n >=? strconv.cutoff10); [discriminate|]. cbv zeta in H.
  match type of H with
  | (if ?b then _ else _) = _ => destruct b; [discriminate | eapply IH, H]
  end.
Qed.

Lemma ParseInt_decimal (s : string) (e : Z) :
  strconv.ParseInt s = (e, None) -> decimal_text s = true.
Proof.
  destruct s as [|c0 s']; [discriminate|]. unfold strconv.ParseInt, decimal_text. cbv zeta.
  destruct (strconv.ParseUint _) as [un err] eqn:Hu.
  intros H. assert (err = None) as ->.
  { destruct err as [[|]|]; [discriminate| |reflexivity].
    apply ParseUint_range_value in Hu. subst un.
    destruct (Ascii.eqb c0 "-"); cbn in H; discriminate. }
  clear H. destruct (Ascii.eqb c0 "+" || Ascii.eqb c0 "-").
  - destruct s' as [|c s']; [discriminate|]. eapply parse_loop_digits, Hu.
  - eapply parse_loop_digits, Hu.
Qed.

(** X4: what an accepted request looks like: its signature is sixty-four
    characters, all digits or the letters a to f in lower case, and its
    expires is an optional sign followed by decimal digits only. *)
Theorem accepted_token_shape (secretKey : string) (now : Z) (c : gin.Context) :
  validateUrl secretKey now c = true ->
  String.length (gin.Query c "signature") = 64%nat
  /\ all_chars is_lower_hex (gin.Query c "signature") = true
  /\ decimal_text (gin.Query c "expires") = true.
Proof.
  intros Hok. apply validateUrl_inv in Hok as (e & Hparse & _ & Hsig).
  rewrite Hsig. unfold generate_signed_url.signature. cbv zeta.
  rewrite hex_length, hmac_Sum_length, hex_lower.
  repeat split. eapply ParseInt_decimal, Hparse.
Qed.

(** ** More on the handlers *)

Lemma json_header :
  gin.writeContentType "application/json; charset=utf-8" ∅
  = {[ "Content-Type" := "application/json; charset=utf-8" ]}.
Proof. unfold gin.writeContentType. rewrite lookup_empty, insert_empty. reflexivity. Qed.

Lemma find_join_inv (dir name : string) (nd : node)
    (d : gmap string (gmap string (list byte))) :
  find (filepath.Join dir name) d = Some nd ->
  exists entries data,
    d !! dir = Some entries /\ entries !! name = Some data /\ nd = Regular data.
Proof.
  unfold find. destruct (d !! dir) as [entries|]; [|discriminate].
  destruct (entries !! name) as [data|] eqn:He; [|discriminate].
  intros [= <-]. exists entries, data. auto.
Qed.

(** Writing one file leaves every other path as it was. *)
Lemma find_write_other (p q : filepath.path) (data : list byte)
    (d : gmap string (gmap string (list byte))) :
  p <> q -> find p (write_file q data d) = find p d.
Proof.
  intros Hne. destruct q as [dir|dir name]; [reflexivity|].
  unfold write_file. destruct (d !! dir) as [entries|] eqn:Hd; [|reflexivity].
  destruct p as [dir'|dir' name']; unfold find.
  - destruct (decide (dir = dir')) as [<-|Hdir].
    + rewrite lookup_insert_eq, Hd. reflexivity.
    + rewrite lookup_insert_ne by exact Hdir. reflexivity.
  - destruct (decide (dir = dir')) as [<-|Hdir].
    + rewrite lookup_insert_eq, Hd. rewrite lookup_insert_ne by congruence. reflexivity.
    + rewrite lookup_insert_ne by exact Hdir. reflexivity.
Qed.

(** X5: the status route needs no token: every GET of "/" is answered with
    200 and the message "Server is running", whatever its query; no call is
    made and the world is left as it was. *)
Theorem root_needs_no_token (uploadDirPath secretKey : string)
    (TypeByExtension : string -> string) (wd : World) (r : Request) :
  Method r = "GET" -> URLPath r = "/" ->
  let s := ServeHTTP uploadDirPath secretKey TypeByExtension wd r in
  writer s = json_response 200 [("message", JString "Server is running")]
  /\ world s = wd
  /\ calls s = [].
Proof.
  intros Hm Hp s. subst s.
  assert (find_route main r = Some (Root, [])) as Hroute.
  { unfold find_route, main. rewrite Hm, Hp. reflexivity. }
  serve Hroute. rewrite json_header. auto.
Qed.

Lemma root_needs_no_token_witness :
  Status (writer (ServeHTTP Scenario.uploads Scenario.secret Scenario.mimeTable
                    (Scenario.world0 Runs.now0)
                    {| Method := "GET"; URLPath := "/"; URLQuery := [("expires", "soon")];
                       MultipartForm := None |})) = 200.
Proof.
  destruct (root_needs_no_token Scenario.uploads Scenario.secret Scenario.mimeTable
              (Scenario.world0 Runs.now0)
              {| Method := "GET"; URLPath := "/"; URLQuery := [("expires", "soon")];
                 MultipartForm := None |} eq_refl eq_refl) as (Hw & _).
  rewrite Hw. reflexivity.
Defined.



(** X10: a GET never changes the world, whatever its path, its token and
    the failures of the operating system. *)
Theorem get_is_read_only (uploadDirPath secretKey : string)
    (TypeByExtension : string -> string) (wd : World) (r : Request) :
  Method r = "GET" ->
  world (ServeHTTP uploadDirPath secretKey TypeByExtension wd r) = wd.
Proof.
  intros Hm.
  destruct (find_route main r) as [[rt ps]|] eqn:Hroute.
  2:{ unfold ServeHTTP, handleHTTPRequest. rewrite Hroute. reflexivity. }
  pose proof (find_route_inv r rt ps Hroute) as Hinv.
  destruct rt; try (destruct Hinv as [Hm' _]; rewrite Hm in Hm'; discriminate);
    serve Hroute; [reflexivity|].
  destruct (validateUrl secretKey (clock wd) _); simpl; [|reflexivity].
  destruct (OpenFails wd); simpl; [reflexivity|].
  destruct (find _ (disk wd)) as [[|data]|] eqn:Hf; simpl; rewrite ?Hf; reflexivity.
Qed.

Lemma get_is_read_only_witness :
  world (ServeHTTP Scenario.uploads Scenario.secret Scenario.mimeTable
           (Scenario.world0 Runs.now0) Scenario.getA) = Scenario.world0 Runs.now0.
Proof.
  apply (get_is_read_only Scenario.uploads Scenario.secret Scenario.mimeTable
           (Scenario.world0 Runs.now0) Scenario.getA eq_refl).
Defined.

(** ** Update: overwrite in place *)

(** X7: an update that succeeds replaces the file's content by exactly the
    uploaded bytes, reports their number, leaves every other path as it
    was, and makes four calls, each once: Stat, FormFile, Create, Copy. *)
Theorem put_overwrites (uploadDirPath secretKey : string) (TypeByExtension : string -> string)
    (wd : World) (r : Request) (ps : list (string * string))
    (old : node) (header : FileHeader) :
  find_route main r = Some (PutImage, ps) ->
  let c := {| gin.Request := r; gin.Params := ps |} in
  let path := filepath.Join uploadDirPath (gin.Param c "filename") in
  validateUrl secretKey (clock wd) c = true ->
  find path (disk wd) = Some old ->
  http.file_part r "file" = Some header ->
  CreateFails wd = false -> CopyFails wd = None ->
  let s := ServeHTTP uploadDirPath secretKey TypeByExtension wd r in
  writer s
  = json_response 200 [("message", JString "File updated");
                       ("size", JNumber (Z.of_nat (length (Content header))))]
  /\ find path (disk (world s)) = Some (Regular (Content header))
  /\ (forall p : filepath.path, p <> path -> find p (disk (world s)) = find p (disk wd))
  /\ calls s = [CallStat path; CallFormFile "file"; CallCreate path;
                CallCopy path (length (Content header))].
Proof.
  intros Hroute c path Hvalid Hfind Hpart Hcreate Hcopy s. subst s path c.
  pose proof Hfind as Hf. apply find_join_inv in Hf as (entries & data & Hdir & _ & _).
  serve Hroute. rewrite Hvalid. simpl. rewrite Hfind. simpl. rewrite Hpart. simpl.
  rewrite Hcreate. simpl. rewrite Hdir. simpl. rewrite Hcopy. simpl.
  rewrite json_header, write_written. repeat split.
  - apply find_written. eauto.
  - intros p Hp. apply find_write_other, Hp.
Qed.

(** X8: an update that fails after the file was found.  Without a file part
    the answer is 400 and nothing is touched; when the file cannot be
    created the answer is 500 and nothing is touched; when the copy breaks
    after [k] bytes the answer is 500 and the file is left holding those [k]
    bytes only, its former content gone, every other path as it was. *)
Theorem put_failures (uploadDirPath secretKey : string) (TypeByExtension : string -> string)
    (wd : World) (r : Request) (ps : list (string * string)) (old : node) :
  find_route main r = Some (PutImage, ps) ->
  let c := {| gin.Request := r; gin.Params := ps |} in
  let path := filepath.Join uploadDirPath (gin.Param c "filename") in
  validateUrl secretKey (clock wd) c = true ->
  find path (disk wd) = Some old ->
  let s := ServeHTTP uploadDirPath secretKey TypeByExtension wd r in
  (http.file_part r "file" = None ->
   Status (writer s) = 400 /\ world s = wd)
  /\ (forall header : FileHeader,
         http.file_part r "file" = Some header -> CreateFails wd = true ->
         Status (writer s) = 500 /\ world s = wd)
  /\ (forall (header : FileHeader) (k : nat),
         http.file_part r "file" = Some header -> CreateFails wd = false ->
         CopyFails wd = Some k ->
         Status (writer s) = 500
         /\ find path (disk (world s)) = Some (Regular (take k (Content header)))
         /\ (forall p : filepath.path, p <> path ->
             find p (disk (world s)) = find p (disk wd))).
Proof.
  intros Hroute c path Hvalid Hfind s. subst s path c.
  pose proof Hfind as Hf. apply find_join_inv in Hf as (entries & data & Hdir & _ & _).
  serve Hroute. rewrite Hvalid. simpl. rewrite Hfind. simpl.
  destruct (http.file_part r "file") as [h|]; simpl.
  2:{ split; [auto|]. split; intros; discriminate. }
  split; [discriminate|]. split.
  - intros header _ Hcreate. rewrite Hcreate. simpl. auto.
  - intros header k [= <-] Hcreate Hcopy. rewrite Hcreate. simpl. rewrite Hdir. simpl.
    rewrite Hcopy. simpl. rewrite write_written. repeat split.
    + apply find_written. eauto.
    + intros p Hp. apply find_write_other, Hp.
Qed.

(** ** Delete *)

(** X9: a delete that succeeds removes the named file and nothing else,
    with one call to Remove. *)
Theorem delete_removes_one (uploadDirPath secretKey : string)
    (TypeByExtension : string -> string)
    (wd : World) (r : Request) (ps : list (string * string)) (old : node) :
  find_route main r = Some (DeleteImage, ps) ->
  let c := {| gin.Request := r; gin.Params := ps |} in
  let path := filepath.Join uploadDirPath (gin.Param c "filename") in
  validateUrl secretKey (clock wd) c = true ->
  find path (disk wd) = Some old ->
  RemoveFails wd = false ->
  let s := ServeHTTP uploadDirPath secretKey TypeByExtension wd r in
  find path (disk (world s)) = None
  /\ (forall p : filepath.path, p <> path -> find p (disk (world s)) = find p (disk wd))
  /\ calls s = [CallRemove path].
Proof.
  intros Hroute c path Hvalid Hfind Hremove s. subst s path c.
  apply find_join_inv in Hfind as (entries & data & Hdir & Hentry & _).
  serve Hroute. rewrite Hvalid. simpl. rewrite Hremove. simpl. rewrite Hdir. simpl.
  rewrite Hentry. simpl. repeat split.
  - unfold find. rewrite lookup_insert_eq, lookup_delete_eq. reflexivity.
  - intros [dir'|dir' name'] Hp; unfold find.
    + destruct (decide (uploadDirPath = dir')) as [<-|Hd].
      * rewrite lookup_insert_eq, Hdir. reflexivity.
      * rewrite lookup_insert_ne by exact Hd. reflexivity.
    + destruct (decide (uploadDirPath = dir')) as [<-|Hd].
      * rewrite lookup_insert_eq, Hdir. rewrite lookup_delete_ne by congruence. reflexivity.
      * rewrite lookup_insert_ne by exact Hd. reflexivity.
Qed.

(** ** The extension kept by an upload *)











(** ** Create *)




(** X12: what a create that fails leaves behind.  Without a file part
    nothing is touched, not even the directory; when the copy breaks after
    [k] bytes the answer is 500 yet the new file stays, holding those [k]
    bytes; when the directory was missing and the file cannot be created
    the answer is 500 yet the directory has been made. *)
Theorem post_failure_residue (uploadDirPath secretKey : string)
    (TypeByExtension : string -> string)
    (wd : World) (r : Request) (ps : list (string * string)) :
  find_route main r = Some (PostImage, ps) ->
  validateUrl secretKey (clock wd) {| gin.Request := r; gin.Params := ps |} = true ->
  let s := ServeHTTP uploadDirPath secretKey TypeByExtension wd r in
  (http.file_part r "file" = None -> world s = wd /\ calls s = [CallFormFile "file"])
  /\ (forall (fh : FileHeader) (k : nat),
         http.file_part r "file" = Some fh ->
         MkdirAllFails wd = false -> CreateFails wd = false -> CopyFails wd = Some k ->
         Status (writer s) = 500
         /\ find (filepath.Join uploadDirPath (nextUUID wd +:+ filepath.Ext (Filename fh)))
              (disk (world s))
            = Some (Regular (take k (Content fh))))
  /\ (forall fh : FileHeader,
         http.file_part r "file" = Some fh ->
         disk wd !! uploadDirPath = None ->
         MkdirAllFails wd = false -> CreateFails wd = true ->
         Status (writer s) = 500
         /\ find (filepath.Dir uploadDirPath) (disk (world s)) = Some Directory).
Proof.
  intros Hroute Hvalid s. subst s.
  serve Hroute. rewrite Hvalid. simpl.
  destruct (http.file_part r "file") as [h|]; simpl.
  2:{ split; [auto|]. split; intros; discriminate. }
  split; [discriminate|]. rewrite find_dir. split.
  - intros fh k [= <-] Hmk Hcreate Hcopy.
    destruct (disk wd !! uploadDirPath) as [entries|] eqn:Hdir; simpl.
    + rewrite Hcreate. simpl. rewrite Hdir. simpl. rewrite Hcopy. simpl.
      rewrite write_written. split; [reflexivity | apply find_written; eauto].
    + rewrite Hmk. simpl. rewrite Hdir. simpl. rewrite Hcreate. simpl.
      rewrite lookup_insert_eq. simpl. rewrite Hcopy. simpl. rewrite write_written.
      split; [reflexivity | apply find_written; rewrite lookup_insert_eq; eauto].
  - intros fh [= <-] Hdir Hmk Hcreate. rewrite Hdir. simpl. rewrite Hmk. simpl.
    rewrite Hdir. simpl. rewrite Hcreate. simpl.
    split; [reflexivity | rewrite find_dir, lookup_insert_eq; reflexivity].
Qed.

(** ** One request after another *)


Lemma get_missing_writer (uploadDirPath secretKey : string)
    (TypeByExtension : string -> string)
    (wd : World) (r : Request) (ps : list (string * string)) :
  find_route main r = Some (GetImage, ps) ->
  let c := {| gin.Request := r; gin.Params := ps |} in
  validateUrl secretKey (clock wd) c = true ->
  find (filepath.Join uploadDirPath (gin.Param c "filename")) (disk wd) = None ->
  writer (ServeHTTP uploadDirPath secretKey TypeByExtension wd r)
  = json_response 404 [("message", JString "File not found")].
Proof.
  intros Hroute c Hvalid Hfind. subst c.
  serve Hroute. rewrite Hvalid. simpl.
  destruct (OpenFails wd); simpl; [|rewrite Hfind; simpl]; rewrite json_header; reflexivity.
Qed.


Lemma delete_ok_world (uploadDirPath secretKey : string) (TypeByExtension : string -> string)
    (wd : World) (r : Request) (ps : list (string * string)) (old : node) :
  find_route main r = Some (DeleteImage, ps) ->
  let c := {| gin.Request := r; gin.Params := ps |} in
  let path := filepath.Join uploadDirPath (gin.Param c "filename") in
  validateUrl secretKey (clock wd) c = true ->
  find path (disk wd) = Some old ->
  RemoveFails wd = false ->
  exists d, world (ServeHTTP uploadDirPath secretKey TypeByExtension wd r) = set_disk d wd
            /\ find path d = None.
Proof.
  intros Hroute c path Hvalid Hfind Hremove. subst path c.
  apply find_join_inv in Hfind as (entries & data & Hdir & Hentry & _).
  serve Hroute. rewrite Hvalid. simpl. rewrite Hremove. simpl. rewrite Hdir. simpl.
  rewrite Hentry. simpl. eexists. split; [reflexivity|].
  unfold find. rewrite lookup_insert_eq, lookup_delete_eq. reflexivity.
Qed.

Lemma delete_missing_status (uploadDirPath secretKey : string)
    (TypeByExtension : string -> string)
    (wd : World) (r : Request) (ps : list (string * string)) :
  find_route main r = Some (DeleteImage, ps) ->
  let c := {| gin.Request := r; gin.Params := ps |} in
  validateUrl secretKey (clock wd) c = true ->
  find (filepath.Join uploadDirPath (gin.Param c "filename")) (disk wd) = None ->
  Status (writer (ServeHTTP uploadDirPath secretKey TypeByExtension wd r)) = 500.
Proof.
  intros Hroute c Hvalid Hfind. subst c. unfold find in Hfind.
  serve Hroute. rewrite Hvalid. simpl.
  destruct (RemoveFails wd); simpl; [reflexivity|].
  destruct (disk wd !! uploadDirPath) as [entries|]; simpl; [|reflexivity].
  destruct (entries !! _); [discriminate | reflexivity].
Qed.



(** X15: after a delete that succeeds, a read of the same name is answered
    with 404 and a second delete of it with 500. *)
Theorem delete_then_gone (uploadDirPath secretKey : string)
    (TypeByExtension : string -> string) (wd : World)
    (r1 r2 : Request) (ps1 ps2 : list (string * string)) (old : node) :
  find_route main r1 = Some (DeleteImage, ps1) ->
  validateUrl secretKey (clock wd) {| gin.Request := r1; gin.Params := ps1 |} = true ->
  find (filepath.Join uploadDirPath
          (gin.Param {| gin.Request := r1; gin.Params := ps1 |} "filename")) (disk wd)
  = Some old ->
  RemoveFails wd = false ->
  let s1 := ServeHTTP uploadDirPath secretKey TypeByExtension wd r1 in
  (find_route main r2 = Some (GetImage, ps2) ->
   gin.Param {| gin.Request := r2; gin.Params := ps2 |} "filename"
   = gin.Param {| gin.Request := r1; gin.Params := ps1 |} "filename" ->
   validateUrl secretKey (clock wd) {| gin.Request := r2; gin.Params := ps2 |} = true ->
   writer (ServeHTTP uploadDirPath secretKey TypeByExtension (world s1) r2)
   = json_response 404 [("message", JString "File not found")])
  /\ Status (writer (ServeHTTP uploadDirPath secretKey TypeByExtension (world s1) r1)) = 500.
Proof.
  intros Hr1 Hv1 Hfind Hremove s1. subst s1.
  destruct (delete_ok_world uploadDirPath secretKey TypeByExtension wd r1 ps1 old
              Hr1 Hv1 Hfind Hremove) as (d & Hworld & Hgone).
  rewrite Hworld. split.
  - intros Hr2 Hname Hv2.
    apply (get_missing_writer uploadDirPath secretKey TypeByExtension (set_disk d wd)
             r2 ps2 Hr2 Hv2).
    rewrite Hname. exact Hgone.
  - apply (delete_missing_status uploadDirPath secretKey TypeByExtension (set_disk d wd)
             r1 ps1 Hr1 Hv1 Hgone).
Qed.

(** ** The middleware on an accepted request *)

(** X16: on an accepted request the middleware writes nothing and hands
    over once: the response, the world and the calls are those of the
    handler run a single time, for every handler that does not move the
    chain's index below zero. *)
Theorem middleware_hands_over_once (secretKey : string) (h : gin.HandlerFunc)
    (c : gin.Context) (wd : World) :
  validateUrl secretKey (clock wd) c = true ->
  let s1 := snd (h c (gin.incr_index;; gin.loop 2 c [])
                   {| world := wd; writer := writer (fresh wd); index := 1; calls := [] |}) in
  0 <= index s1 ->
  let s := snd (gin.Next c [SignedURLMiddleware secretKey; h] (fresh wd)) in
  writer s = writer s1 /\ world s = world s1 /\ calls s = calls s1
  /\ index s = index s1 + 2.
Proof.
  intros Hvalid s1 Hindex s. subst s s1.
  unfold SignedURLMiddleware, fresh in *. revert Hindex. unfold_monad. simpl.
  rewrite Hvalid. simpl.
  change (-1 + 1 + 1) with 1. change (Z.of_nat 2) with 2.
  match goal with
  | |- context [h c ?k ?s0] => destruct (h c k s0) as [u s1]
  end.
  simpl. intros Hindex.
  destruct (Z.ltb_spec (index s1 + 1 + 1) 2) as [?|_]; [lia|]. simpl.
  repeat split. lia.
Qed.

(** ** The signing script and the server *)






(** X18: what the script's command line can ask for.  When the arguments
    are accepted the method is GET, POST, PUT or DELETE, so it holds no
    colon; a POST carries no image name and takes its validity from the
    second argument; the other methods take the name from the second and
    the validity from the third.  No arguments at all are refused. *)
Theorem parseArgs_accepts (args : list string) (m : string) (name : option string)
    (t : string) :
  generate_signed_url.parseArgs args = Some (m, name, t) ->
  In m ["GET"; "POST"; "PUT"; "DELETE"]
  /\ free_of ":" m
  /\ (name = None <-> m = "POST")
  /\ match name with
     | None => args !! 1%nat = Some t
     | Some image => args !! 1%nat = Some image /\ args !! 2%nat = Some t
     end
  /\ generate_signed_url.parseArgs [] = None.
Proof.
  unfold generate_signed_url.parseArgs. destruct args as [|flag operands]; [discriminate|].
  cbv zeta.
  repeat match goal with
         | |- context [if ?b then _ else _] => destruct b
         end;
    try discriminate;
    destruct operands as [|a [|b operands]]; try discriminate;
    intros [= <- <- <-]; cbn;
    (repeat split; try discriminate; try congruence; auto 6; try (intros; discriminate)).
Qed.

(** ** The further properties at concrete requests *)

(** The requests signed in [Scenario] pass validation until their expiry. *)
Lemma scenario_signed_valid (method path : string) (filename : option string) (e now : Z)
    (form : option (list (string * FileHeader))) (ps : list (string * string)) :
  - 2 ^ 63 <= e < 2 ^ 63 -> now <= e ->
  gin.Param {| gin.Request := Scenario.signed method path filename e form;
               gin.Params := ps |} "filename" = default "" filename ->
  validateUrl Scenario.secret now
    {| gin.Request := Scenario.signed method path filename e form; gin.Params := ps |}
  = true.
Proof.
  intros He Hle Hparam.
  rewrite (validateUrl_signed Scenario.secret now _ e).
  - destruct (Z.gtb_spec now e); [lia | reflexivity].
  - apply ParseInt_FormatInt, He.
  - rewrite Hparam. destruct filename; reflexivity.
Qed.

Lemma expiry_in_range : - 2 ^ 63 <= Scenario.expiry < 2 ^ 63.
Proof. rewrite pow2_63. unfold Scenario.expiry. lia. Qed.

Lemma valid_getA (now : Z) :
  now <= Scenario.expiry ->
  validateUrl Scenario.secret now (Scenario.at_a Scenario.getA) = true.
Proof. intros H. apply scenario_signed_valid; [apply expiry_in_range | exact H | reflexivity]. Qed.

Lemma valid_putA (now : Z) :
  now <= Scenario.expiry ->
  validateUrl Scenario.secret now (Scenario.at_a Runs.putA) = true.
Proof. intros H. apply scenario_signed_valid; [apply expiry_in_range | exact H | reflexivity]. Qed.

Lemma valid_deleteA (now : Z) :
  now <= Scenario.expiry ->
  validateUrl Scenario.secret now (Scenario.at_a Scenario.deleteA) = true.
Proof. intros H. apply scenario_signed_valid; [apply expiry_in_range | exact H | reflexivity]. Qed.

Lemma valid_postPhoto (now : Z) :
  now <= Scenario.expiry ->
  validateUrl Scenario.secret now
    {| gin.Request := Scenario.postPhoto; gin.Params := [] |} = true.
Proof. intros H. apply scenario_signed_valid; [apply expiry_in_range | exact H | reflexivity]. Qed.


Lemma now0_before_expiry : Runs.now0 <= Scenario.expiry.
Proof. unfold Runs.now0, Scenario.expiry. lia. Qed.

Lemma validateUrl_antitone_witness :
  validateUrl Scenario.secret 1700000000 (Scenario.at_a Scenario.getA) = true.
Proof.
  apply (proj1 (validateUrl_antitone Scenario.secret 1999999999 1700000000
                  (Scenario.at_a Scenario.getA) ltac:(lia))).
  apply valid_getA. unfold Scenario.expiry. lia.
Defined.

Lemma accepted_token_shape_witness :
  String.length (gin.Query (Scenario.at_a Scenario.getA) "signature") = 64%nat.
Proof.
  apply (proj1 (accepted_token_shape Scenario.secret Runs.now0 (Scenario.at_a Scenario.getA)
                  (valid_getA Runs.now0 now0_before_expiry))).
Defined.

Lemma put_overwrites_witness :
  find (filepath.Join Scenario.uploads "a.jpg")
    (disk (world (ServeHTTP Scenario.uploads Scenario.secret Scenario.mimeTable
                    (Scenario.world0 Runs.now0) Runs.putA)))
  = Some (Regular Runs.newBytes).
Proof.
  destruct (put_overwrites Scenario.uploads Scenario.secret Scenario.mimeTable
              (Scenario.world0 Runs.now0) Runs.putA [("filename", "a.jpg")]
              (Regular Scenario.jpgBytes) Runs.replacement
              eq_refl (valid_putA Runs.now0 now0_before_expiry))
    as (_ & Hfile & _); [vm_compute; reflexivity | reflexivity..|exact Hfile].
Defined.

Lemma put_failures_witness :
  Status (writer (ServeHTTP Scenario.uploads Scenario.secret Scenario.mimeTable
                    Runs.brokenCopy Runs.putA)) = 500
  /\ find (filepath.Join Scenario.uploads "a.jpg")
       (disk (world (ServeHTTP Scenario.uploads Scenario.secret Scenario.mimeTable
                       Runs.brokenCopy Runs.putA)))
     = Some (Regular [x89; x50]).
Proof.
  destruct (put_failures Scenario.uploads Scenario.secret Scenario.mimeTable
              Runs.brokenCopy Runs.putA [("filename", "a.jpg")] (Regular Scenario.jpgBytes)
              eq_refl (valid_putA Runs.now0 now0_before_expiry))
    as (_ & _ & Hcopy); [vm_compute; reflexivity|].
  destruct (Hcopy Runs.replacement 2%nat eq_refl eq_refl eq_refl) as (Hst & Hfile & _).
  split; [exact Hst | exact Hfile].
Defined.

Lemma delete_removes_one_witness :
  find (filepath.Join Scenario.uploads "a.jpg")
    (disk (world (ServeHTTP Scenario.uploads Scenario.secret Scenario.mimeTable
                    (Scenario.world0 Runs.now0) Scenario.deleteA)))
  = None.
Proof.
  destruct (delete_removes_one Scenario.uploads Scenario.secret Scenario.mimeTable
              (Scenario.world0 Runs.now0) Scenario.deleteA [("filename", "a.jpg")]
              (Regular Scenario.jpgBytes)
              eq_refl (valid_deleteA Runs.now0 now0_before_expiry))
    as (Hgone & _); [vm_compute; reflexivity | reflexivity | exact Hgone].
Defined.


Lemma post_failure_residue_witness :
  Status (writer (ServeHTTP Scenario.uploads Scenario.secret Scenario.mimeTable
                    Runs.brokenCopy Scenario.postPhoto)) = 500
  /\ find (filepath.Join Scenario.uploads Runs.stored)
       (disk (world (ServeHTTP Scenario.uploads Scenario.secret Scenario.mimeTable
                       Runs.brokenCopy Scenario.postPhoto)))
     = Some (Regular [xff; xd8]).
Proof.
  destruct (post_failure_residue Scenario.uploads Scenario.secret Scenario.mimeTable
              Runs.brokenCopy Scenario.postPhoto []
              eq_refl (valid_postPhoto Runs.now0 now0_before_expiry))
    as (_ & Hcopy & _).
  destruct (Hcopy Scenario.photo 2%nat eq_refl eq_refl eq_refl eq_refl) as (Hst & Hfile).
  split; [exact Hst | exact Hfile].
Defined.



Lemma delete_then_gone_witness :
  Status (writer (ServeHTTP Scenario.uploads Scenario.secret Scenario.mimeTable
                    (world (ServeHTTP Scenario.uploads Scenario.secret Scenario.mimeTable
                              (Scenario.world0 Runs.now0) Scenario.deleteA))
                    Scenario.deleteA)) = 500.
Proof.
  destruct (delete_then_gone Scenario.uploads Scenario.secret Scenario.mimeTable
              (Scenario.world0 Runs.now0) Scenario.deleteA Scenario.getA
              [("filename", "a.jpg")] [("filename", "a.jpg")] (Regular Scenario.jpgBytes)
              eq_refl (valid_deleteA Runs.now0 now0_before_expiry))
    as (_ & Hagain); [vm_compute; reflexivity | reflexivity | exact Hagain].
Defined.

Lemma middleware_hands_over_once_witness :
  calls (snd (gin.Next (Scenario.at_a Scenario.getA)
                [SignedURLMiddleware Scenario.secret;
                 getImageHandler Scenario.uploads Scenario.mimeTable]
                (fresh (Scenario.world0 Runs.now0))))
  = calls (snd (getImageHandler Scenario.uploads Scenario.mimeTable
                  (Scenario.at_a Scenario.getA)
                  (gin.incr_index;; gin.loop 2 (Scenario.at_a Scenario.getA) [])
                  {| world := Scenario.world0 Runs.now0;
                     writer := writer (fresh (Scenario.world0 Runs.now0));
                     index := 1; calls := [] |})).
Proof.
  destruct (middleware_hands_over_once Scenario.secret
              (getImageHandler Scenario.uploads Scenario.mimeTable)
              (Scenario.at_a Scenario.getA) (Scenario.world0 Runs.now0)
              (valid_getA Runs.now0 now0_before_expiry))
    as (_ & _ & Hcalls & _); [vm_compute; discriminate | exact Hcalls].
Defined.


Lemma parseArgs_accepts_witness :
  generate_signed_url.parseArgs ["--GET"; "a.jpg"; "3600"] = Some ("GET", Some "a.jpg", "3600")
  /\ free_of ":" "GET".
Proof.
  assert (generate_signed_url.parseArgs ["--GET"; "a.jpg"; "3600"]
          = Some ("GET", Some "a.jpg", "3600")) as H by reflexivity.
  split; [exact H|].
  exact (proj1 (proj2 (parseArgs_accepts _ _ _ _ H))).
Defined.
